(** * GreenTech relay controller: bus handlers, dashboard writes, scheduler

    A shallow embedding of the server of the relay-control backend:
    the three MQTT ingestion handlers, [controlRelay], the relay
    configuration route, the once-per-minute scheduler pass and
    [calculateNextRun].  Collections are lists in natural (insertion)
    order, the process-local device cache is a [gmap], and every effect
    the handlers perform on the outside world (WebSocket broadcast, MQTT
    publish, store call, cache write, error log) is appended to a trace
    in program order. *)

From Stdlib Require Import ZArith Lia Ascii String.
From stdpp Require Import base option list gmap strings pretty.

Local Open Scope Z_scope.

(** ** JavaScript values used by the server *)

Module Js.

(** [a <= b] and [a >= b] on two strings compare code units
    lexicographically; a proper prefix is smaller than its extensions. *)
Definition str_le (a b : string) : bool := String.leb a b.
Definition str_ge (a b : string) : bool := String.leb b a.
Definition str_lt (a b : string) : bool := String.ltb a b.

(** [!x] for a possibly absent string: absent and the empty string are
    falsy. *)
Definition truthy_str (x : option string) : bool :=
  match x with
  | Some s => negb (String.eqb s "")
  | None => false
  end.

(** [!x] for a possibly absent boolean. *)
Definition truthy_bool (x : option bool) : bool :=
  match x with
  | Some b => b
  | None => false
  end.

(** [arr.includes(x)] on an array of numbers. *)
Definition includes (x : Z) (arr : list Z) : bool :=
  existsb (Z.eqb x) arr.

Definition digit (d : Z) : ascii := ascii_of_nat (48 + Z.to_nat d).

Definition two_digits (n : Z) : string :=
  String (digit (n / 10 mod 10)) (String (digit (n mod 10)) EmptyString).

Definition four_digits (n : Z) : string :=
  String (digit (n / 1000 mod 10)) (String (digit (n / 100 mod 10))
    (two_digits n)).

End Js.

(** ** Documents of the two collections *)

(** A bcrypt digest, kept symbolic: the cost factor, the salt drawn for
    this call and the plaintext it was computed from.  Two calls of
    [bcrypt.hash] on one plaintext differ in their salt. *)
Record Digest := Bcrypt { cost : nat; salt : nat; plaintext : string }.

Definition bcrypt_hash (password : string) (rounds : nat) (fresh : nat) : Digest :=
  Bcrypt rounds fresh password.

Definition bcrypt_compare (password : string) (d : Digest) : bool :=
  String.eqb password (plaintext d).

(** One entry of [relay.schedules]. *)
Record Schedule := {
  days : list Z;
  startTime : string;
  endTime : string;
  sched_enabled : bool
}.

(** One entry of [dashboard.relays], as stored.  [relay.enabled = enabled]
    with a body that lacks the key leaves the entry without the field, so
    the stored flag is optional; what a loaded document answers for it is
    [relayEnabled] below. *)
Record RelayConfig := {
  index : Z;
  name : option string;
  image : option string;
  schedules : list Schedule;
  enabled : option bool;
  relay_createdAt : Z
}.

(** [relay.enabled] read from a document handed back by a query.  The
    schema declares [enabled: { type: Boolean, default: true }], and a
    document is given its defaults when it is loaded: an entry stored
    without the field answers [true]. *)
Definition relayEnabled (relay : RelayConfig) : bool :=
  default true (enabled relay).

Record Dashboard := { relays : list RelayConfig }.

(** A document of the [User] collection. *)
Record User := {
  username : string;
  password : Digest;
  deviceId : string;
  createdAt : Z;
  dashboard : Dashboard
}.

(** One element of a status record's [relays]; every field of the
    sub-schema is optional. *)
Record RelayObs := {
  obs_index : option Z;
  obs_state : option bool;
  obs_name : option string;
  obs_timer : option Z
}.

(** The [relays] field of a stored status record.  A record saved from a
    full snapshot holds an array, whose elements may be [null] once a
    field-path update has padded it.  A record created by an upsert of
    the paths [relays.<c>.state] and [relays.<c>.timer] on a missing field
    holds an embedded document keyed by the path segment. *)
Inductive RelaysField :=
| RelaysArray (elems : list (option RelayObs))
| RelaysDocument (fields : gmap nat RelayObs).

(** A document of the [DeviceStatus] collection. *)
Record DeviceStatus := {
  ds_deviceId : string;
  ds_ip : option string;
  ds_rssi : option Z;
  ds_uptime : option Z;
  ds_relays : RelaysField;
  ds_timestamp : Z
}.

(** ** Bus and socket payloads *)

Record Registration := {
  reg_username : option string;
  reg_password : option string;
  reg_deviceId : option string
}.

Record RelayStatusMsg := {
  rs_deviceId : string;
  rs_relay : nat;
  rs_state : bool;
  rs_timer : Z
}.

Record DeviceStatusMsg := {
  dm_deviceId : string;
  dm_ip : option string;
  dm_rssi : option Z;
  dm_uptime : option Z;
  dm_relays : list RelayObs
}.

(** The message built by [controlRelay]. *)
Record ControlMsg := {
  cm_deviceId : string;
  cm_relay : Z;
  cm_action : string;
  cm_duration : option Z
}.

#[global] Instance ControlMsg_eq_dec : EqDecision ControlMsg.
Proof. solve_decision. Defined.

Inductive WsData :=
| RelayStatusData (m : RelayStatusMsg)
| DeviceStatusData (m : DeviceStatusMsg).

(** The object handed to [broadcastToWebSockets]. *)
Record WsMessage := { ws_type : string; ws_data : WsData }.

(** The value stored in [connectedDevices]: the payload spread together
    with [lastSeen]. *)
Record Snapshot := { snap_data : DeviceStatusMsg; lastSeen : Z }.

Inductive ReadyState := CONNECTING | OPEN | CLOSING | CLOSED.

Record WsClient := { client_id : nat; readyState : ReadyState }.

#[global] Instance ReadyState_eq_dec : EqDecision ReadyState.
Proof. solve_decision. Defined.

(** ** The clock

    [new Date()] is an instant; what the code reads from it depends on
    two time zones: [getDay()] answers in the time zone of the process,
    [toLocaleTimeString] is asked for [Africa/Cairo]. *)
Record Clock := {
  now : Z;          (* milliseconds since 1970-01-01T00:00Z *)
  hostOffset : Z;   (* minutes east of UTC of the process time zone at [now] *)
  cairoOffset : Z;  (* minutes east of UTC of Africa/Cairo at [now] *)
  hostOffsetAt : Z → Z
    (* minutes east of UTC the process time zone gives to a local
       wall-clock time, in milliseconds since the epoch read as local
       time; used when a local time is turned back into an instant *)
}.

Definition msPerMinute : Z := 60000.
Definition msPerDay : Z := 86400000.

(** Weekday of a day count since the epoch; 1970-01-01 was a Thursday. *)
Definition weekday (epochDay : Z) : Z := (epochDay + 4) mod 7.

(** [now.getDay()]: 0-6 (Sunday-Saturday), in the process time zone. *)
Definition getDay (c : Clock) : Z :=
  weekday ((now c + hostOffset c * msPerMinute) / msPerDay).

Definition cairoMinuteOfDay (c : Clock) : Z :=
  ((now c + cairoOffset c * msPerMinute) / msPerMinute) mod 1440.

(** The 12-hour rendering of a minute of the day with two-digit hour and
    minute: hour 01-12, colon, minute, a space, AM or PM. *)
Definition format12 (m : Z) : string :=
  let h := m / 60 in
  let h12 := if h mod 12 =? 0 then 12 else h mod 12 in
  Js.two_digits h12 +:+ ":" +:+ Js.two_digits (m mod 60) +:+ " " +:+
  (if h <? 12 then "AM" else "PM").

(** The 24-hour "HH:MM" rendering of a minute of the day. *)
Definition format24 (m : Z) : string :=
  Js.two_digits (m / 60) +:+ ":" +:+ Js.two_digits (m mod 60).

(** [now.toLocaleTimeString('en-EG', { timeZone: 'Africa/Cairo',
    hour: '2-digit', minute: '2-digit' })].  No [hour12] or [hourCycle]
    option is passed, so the locale decides the hour cycle, and for
    English (as for the region Egypt) that is the 12-hour clock with a
    day period: "08:02 AM", "01:30 PM", "12:05 AM".  (Recent locale data
    puts a narrow no-break space before the day period; against
    five-character bounds the comparisons come out the same.) *)
Definition toLocaleTimeString (c : Clock) : string :=
  format12 (cairoMinuteOfDay c).

(** The readings the specification speaks of: weekday and 24-hour
    "HH:MM" wall-clock time, both in Africa/Cairo. *)
Definition cairoDay (c : Clock) : Z :=
  weekday ((now c + cairoOffset c * msPerMinute) / msPerDay).

Definition cairoHHMM (c : Clock) : string :=
  format24 (cairoMinuteOfDay c).

(** [d.toISOString().split('T')[0]] for the instant [ms]: the proleptic
    Gregorian date of its UTC day, as YYYY-MM-DD. *)
Definition isoDate (ms : Z) : string :=
  let z := ms / msPerDay + 719468 in
  let era := z / 146097 in
  let doe := z - era * 146097 in
  let yoe := (doe - doe / 1460 + doe / 36524 - doe / 146096) / 365 in
  let doy := doe - (365 * yoe + yoe / 4 - yoe / 100) in
  let mp := (5 * doy + 2) / 153 in
  let d := doy - (153 * mp + 2) / 5 + 1 in
  let m := if mp <? 10 then mp + 3 else mp - 9 in
  let y := yoe + era * 400 + (if m <=? 2 then 1 else 0) in
  Js.four_digits y +:+ "-" +:+ Js.two_digits m +:+ "-" +:+ Js.two_digits d.

(** ** The world the handlers act on *)

(** Observable effects, in program order. *)
Inductive Event :=
| WsBroadcast (m : WsMessage) (sentTo : list nat)
| MqttPublish (topic : string) (m : ControlMsg)
| StoreCall (op : string)
| CacheSet (device : string)
| ConsoleError (what : string).

Record World := {
  users : list User;                          (* the User collection *)
  statuses : list DeviceStatus;               (* the DeviceStatus collection *)
  connectedDevices : gmap string Snapshot;    (* const connectedDevices = new Map() *)
  wsClients : list WsClient;                  (* const wsClients = new Set() *)
  trace : list Event
}.

(** Whether the driver settles a store call or rejects it. *)
Inductive Outcome := Resolved | Rejected.

#[global] Instance Outcome_eq_dec : EqDecision Outcome.
Proof. solve_decision. Defined.

Definition emit (e : Event) (w : World) : World :=
  {| users := users w; statuses := statuses w;
     connectedDevices := connectedDevices w; wsClients := wsClients w;
     trace := trace w ++ [e] |}.

Definition set_users (us : list User) (w : World) : World :=
  {| users := us; statuses := statuses w;
     connectedDevices := connectedDevices w; wsClients := wsClients w;
     trace := trace w |}.

Definition set_statuses (ds : list DeviceStatus) (w : World) : World :=
  {| users := users w; statuses := ds;
     connectedDevices := connectedDevices w; wsClients := wsClients w;
     trace := trace w |}.

Definition set_connectedDevices (m : gmap string Snapshot) (w : World) : World :=
  {| users := users w; statuses := statuses w;
     connectedDevices := m; wsClients := wsClients w;
     trace := trace w |}.

(** [broadcastToWebSockets(data)]: one message, sent to every client
    whose [readyState] is [OPEN]; the others are skipped. *)
Definition broadcastToWebSockets (m : WsMessage) (w : World) : World :=
  emit (WsBroadcast m
          (client_id <$> filter (λ c, readyState c = OPEN) (wsClients w))) w.

(** [controlRelay(deviceId, relayIndex, action, duration = null)] *)
Definition controlRelay (device : string) (relayIndex : Z) (action : string)
    (duration : option Z) (w : World) : World :=
  emit (MqttPublish "green-tech/relay-control"
          {| cm_deviceId := device; cm_relay := relayIndex;
             cm_action := action; cm_duration := duration |}) w.

(** ** Store operations *)

(** The filter of [User.findOne({ $or: [{ username }, { deviceId }] })]. *)
Definition userMatches (u d : string) (x : User) : Prop :=
  username x = u ∨ deviceId x = d.

#[global] Instance userMatches_dec u d x : Decision (userMatches u d x).
Proof. unfold userMatches. apply _. Defined.

Definition with_password (h : Digest) (x : User) : User :=
  {| username := username x; password := h; deviceId := deviceId x;
     createdAt := createdAt x; dashboard := dashboard x |}.

Definition with_dashboard (d : Dashboard) (x : User) : User :=
  {| username := username x; password := password x; deviceId := deviceId x;
     createdAt := createdAt x; dashboard := d |}.

(** [doc.save()] of a document loaded from the collection at position
    [i]: the modified paths are written back to that document. *)
Definition saveExisting {A} (o : Outcome) (i : nat) (doc : A) (coll : list A)
    : option (list A) :=
  match o with
  | Rejected => None
  | Resolved => Some (<[i := doc]> coll)
  end.

(** [user.save()] of a new [User]: the unique indexes on [username] and
    [deviceId] reject a duplicate of either. *)
Definition saveNewUser (o : Outcome) (x : User) (coll : list User)
    : option (list User) :=
  match o with
  | Rejected => None
  | Resolved =>
      if decide (Exists (userMatches (username x) (deviceId x)) coll)
      then None
      else Some (coll ++ [x])
  end.

(** ** Registration handler *)

Definition handleUserRegistration (fresh : nat) (clock : Clock)
    (findOutcome saveOutcome : Outcome) (data : Registration) (w : World)
    : World :=
  if negb (Js.truthy_str (reg_username data))
     || negb (Js.truthy_str (reg_password data))
     || negb (Js.truthy_str (reg_deviceId data))
  then emit (ConsoleError "Missing required fields in registration data") w
  else
    let u := default EmptyString (reg_username data) in
    let p := default EmptyString (reg_password data) in
    let d := default EmptyString (reg_deviceId data) in
    let w := emit (StoreCall "User.findOne") w in
    match findOutcome with
    | Rejected => emit (ConsoleError "Error registering user") w
    | Resolved =>
        match list_find (userMatches u d) (users w) with
        | Some (i, existingUser) =>
            let hashedPassword := bcrypt_hash p 12 fresh in
            let w := emit (StoreCall "User.save") w in
            match saveExisting saveOutcome i
                    (with_password hashedPassword existingUser) (users w) with
            | Some coll => set_users coll w
            | None => emit (ConsoleError "Error registering user") w
            end
        | None =>
            let hashedPassword := bcrypt_hash p 12 fresh in
            let user :=
              {| username := u; password := hashedPassword; deviceId := d;
                 createdAt := now clock;
                 dashboard := {| relays := [] |} |} in
            let w := emit (StoreCall "User.save") w in
            match saveNewUser saveOutcome user (users w) with
            | Some coll => set_users coll w
            | None => emit (ConsoleError "Error registering user") w
            end
        end
    end.

(** ** Relay-status handler *)

Definition with_state_timer (st : bool) (tm : Z) (e : RelayObs) : RelayObs :=
  {| obs_index := obs_index e; obs_state := Some st;
     obs_name := obs_name e; obs_timer := Some tm |}.

Definition emptyObs : RelayObs :=
  {| obs_index := None; obs_state := None; obs_name := None;
     obs_timer := None |}.

(** [$set] of the two paths [relays.<c>.state] and [relays.<c>.timer].
    On an array the segment [c] is an array position: an existing element
    is updated in place, a position past the end is created after padding
    the gap with [null], and a [null] element cannot take a field (the
    update is rejected).  On an embedded document [c] is a key. *)
Definition setRelayPaths (c : nat) (st : bool) (tm : Z) (f : RelaysField)
    : option RelaysField :=
  match f with
  | RelaysArray elems =>
      match elems !! c with
      | Some (Some e) =>
          Some (RelaysArray (<[c := Some (with_state_timer st tm e)]> elems))
      | Some None => None
      | None =>
          Some (RelaysArray
                  (elems ++ replicate (c - length elems)%nat None
                         ++ [Some (with_state_timer st tm emptyObs)]))
      end
  | RelaysDocument fields =>
      Some (RelaysDocument
              (<[c := with_state_timer st tm (default emptyObs (fields !! c))]>
                 fields))
  end.

Definition with_relays_timestamp (r : RelaysField) (t : Z) (d : DeviceStatus)
    : DeviceStatus :=
  {| ds_deviceId := ds_deviceId d; ds_ip := ds_ip d; ds_rssi := ds_rssi d;
     ds_uptime := ds_uptime d; ds_relays := r; ds_timestamp := t |}.

(** The record an upsert inserts when the device has none: the filter's
    [deviceId], the refreshed timestamp, and the two [$set] paths, which on
    a missing [relays] field build an embedded document with the key
    [<c>]. *)
Definition createdStatus (t : Z) (data : RelayStatusMsg) : DeviceStatus :=
  {| ds_deviceId := rs_deviceId data; ds_ip := None; ds_rssi := None;
     ds_uptime := None;
     ds_relays :=
       RelaysDocument
         {[ rs_relay data :=
              with_state_timer (rs_state data) (rs_timer data) emptyObs ]};
     ds_timestamp := t |}.

(** [DeviceStatus.findOneAndUpdate({ deviceId }, { $set: ... },
    { upsert: true, new: true })].  No sort is given: the document
    updated is the first one the filter matches in natural order.  With
    no match, a document is inserted from the filter's equality and the
    [$set] paths. *)
Definition findOneAndUpdate (o : Outcome) (t : Z) (data : RelayStatusMsg)
    (coll : list DeviceStatus) : option (list DeviceStatus) :=
  match o with
  | Rejected => None
  | Resolved =>
      match list_find (λ d, ds_deviceId d = rs_deviceId data) coll with
      | Some (i, d) =>
          match setRelayPaths (rs_relay data) (rs_state data) (rs_timer data)
                  (ds_relays d) with
          | Some r => Some (<[i := with_relays_timestamp r t d]> coll)
          | None => None
          end
      | None =>
          Some (coll ++ [createdStatus t data])
      end
  end.

Definition handleRelayStatus (clock : Clock) (upsertOutcome : Outcome)
    (data : RelayStatusMsg) (w : World) : World :=
  let w := broadcastToWebSockets
             {| ws_type := "relay_status"; ws_data := RelayStatusData data |} w in
  let w := emit (StoreCall "DeviceStatus.findOneAndUpdate") w in
  match findOneAndUpdate upsertOutcome (now clock) data (statuses w) with
  | Some coll => set_statuses coll w
  | None => emit (ConsoleError "Error handling relay status") w
  end.

(** ** Device-status handler *)

(** [new DeviceStatus(data)] followed by [save()]: [deviceId] is
    required (an empty string does not satisfy it), [timestamp] takes its
    default, and the document is appended to the collection. *)
Definition saveDeviceStatus (o : Outcome) (t : Z) (data : DeviceStatusMsg)
    (coll : list DeviceStatus) : option (list DeviceStatus) :=
  match o with
  | Rejected => None
  | Resolved =>
      if String.eqb (dm_deviceId data) ""
      then None
      else Some (coll ++
                 [{| ds_deviceId := dm_deviceId data; ds_ip := dm_ip data;
                     ds_rssi := dm_rssi data; ds_uptime := dm_uptime data;
                     ds_relays := RelaysArray (Some <$> dm_relays data);
                     ds_timestamp := t |}])
  end.

Definition handleDeviceStatus (clock : Clock) (saveOutcome : Outcome)
    (data : DeviceStatusMsg) (w : World) : World :=
  let w := emit (StoreCall "DeviceStatus.save") w in
  match saveDeviceStatus saveOutcome (now clock) data (statuses w) with
  | None => emit (ConsoleError "Error handling device status") w
  | Some coll =>
      let w := set_statuses coll w in
      let w := emit (CacheSet (dm_deviceId data))
                 (set_connectedDevices
                    (<[dm_deviceId data :=
                         {| snap_data := data; lastSeen := now clock |}]>
                       (connectedDevices w)) w) in
      broadcastToWebSockets
        {| ws_type := "device_status"; ws_data := DeviceStatusData data |} w
  end.

(** [DeviceStatus.findOne({ deviceId }).sort({ timestamp: -1 })], the read
    of the dashboard route: among the records of the device, the one with
    the greatest timestamp (the first such in natural order). *)
Definition latestStatus (device : string) (coll : list DeviceStatus)
    : option (nat * DeviceStatus) :=
  foldl (λ best cand,
           if decide (ds_deviceId cand.2 = device) then
             match best with
             | Some b => if ds_timestamp b.2 <? ds_timestamp cand.2
                         then Some cand else best
             | None => Some cand
             end
           else best)
        None (imap pair coll).

(** ** Relay configuration route: PUT /api/dashboard/relay/:deviceId *)

Record RelayBody := {
  body_index : Z;
  body_name : option string;
  body_image : option string;
  body_enabled : option bool
}.

Record Response := {
  status : Z;
  success : bool;
  message : string;
  resp_dashboard : option Dashboard
}.

Definition configure (b : RelayBody) (r : RelayConfig) : RelayConfig :=
  {| index := index r; name := body_name b; image := body_image b;
     schedules := schedules r; enabled := body_enabled b;
     relay_createdAt := relay_createdAt r |}.

(** The entry the route pushes when no relay has the requested index;
    [enabled: enabled !== undefined ? enabled : true]. *)
Definition newRelay (t : Z) (b : RelayBody) : RelayConfig :=
  {| index := body_index b; name := body_name b; image := body_image b;
     schedules := [];
     enabled := Some (default true (body_enabled b));
     relay_createdAt := t |}.

(** The body of the route between [findOne] and [save]:
    [relays.find(r => r.index === index)], then either the three
    assignments on the entry found or the [push] of a new entry. *)
Definition upsertRelay (t : Z) (b : RelayBody) (rs : list RelayConfig)
    : list RelayConfig :=
  match list_find (λ r, index r = body_index b) rs with
  | Some (i, relay) => <[i := configure b relay]> rs
  | None =>
      rs ++ [newRelay t b]
  end.

Definition putRelay (clock : Clock) (findOutcome saveOutcome : Outcome)
    (device : string) (b : RelayBody) (w : World) : World * Response :=
  let serverError :=
    {| status := 500; success := false; message := "Server error";
       resp_dashboard := None |} in
  let w := emit (StoreCall "User.findOne") w in
  match findOutcome with
  | Rejected => (emit (ConsoleError "Error updating relay") w, serverError)
  | Resolved =>
      match list_find (λ x, deviceId x = device) (users w) with
      | None =>
          (w, {| status := 404; success := false;
                 message := "User not found"; resp_dashboard := None |})
      | Some (i, user) =>
          let d := {| relays := upsertRelay (now clock) b
                                  (relays (dashboard user)) |} in
          let w := emit (StoreCall "User.save") w in
          match saveExisting saveOutcome i (with_dashboard d user) (users w) with
          | None => (emit (ConsoleError "Error updating relay") w, serverError)
          | Some coll =>
              (set_users coll w,
               {| status := 200; success := true;
                  message := "Relay configuration updated";
                  resp_dashboard := Some d |})
          end
      end
  end.

(** ** Scheduler *)

(** The innermost loop body of the tick, for one schedule. *)
Definition checkSchedule (currentDay : Z) (currentTime : string)
    (user : User) (relay : RelayConfig) (w : World) (schedule : Schedule)
    : World :=
  if negb (sched_enabled schedule) then w
  else
    let isScheduledDay := Js.includes currentDay (days schedule) in
    let isScheduledTime :=
      Js.str_ge currentTime (startTime schedule)
      && Js.str_le currentTime (endTime schedule) in
    if isScheduledDay && isScheduledTime
    then controlRelay (deviceId user) (index relay) "on" None w
    else w.

Definition checkRelay (currentDay : Z) (currentTime : string) (user : User)
    (w : World) (relay : RelayConfig) : World :=
  if negb (relayEnabled relay) then w
  else foldl (checkSchedule currentDay currentTime user relay) w
             (schedules relay).

Definition checkUser (currentDay : Z) (currentTime : string) (w : World)
    (user : User) : World :=
  foldl (checkRelay currentDay currentTime user) w (relays (dashboard user)).

(** One evaluation pass over the users handed back by [User.find({})],
    with the day and time the tick has captured. *)
Definition checkSchedules (currentDay : Z) (currentTime : string)
    (found : list User) (w : World) : World :=
  foldl (checkUser currentDay currentTime) w found.

(** The callback [setupScheduler] registers with
    [cron.schedule('* * * * *', ...)]: one tick. *)
Definition schedulerTick (clock : Clock) (findOutcome : Outcome) (w : World)
    : World :=
  let currentDay := getDay clock in
  let currentTime := toLocaleTimeString clock in
  let w := emit (StoreCall "User.find") w in
  match findOutcome with
  | Rejected => emit (ConsoleError "Scheduler error") w
  | Resolved => checkSchedules currentDay currentTime (users w) w
  end.

(** The relay-control messages published in a trace, oldest first. *)
Definition published (tr : list Event) : list ControlMsg :=
  omap (λ e, match e with
             | MqttPublish _ m => Some m
             | _ => None
             end) tr.

(** ** calculateNextRun *)

Record NextRun := { date : string; time : string; daysFromNow : Z }.

(** [for (let i = 1; i <= 7; i++)] with its [break]; [left] counts the
    iterations that remain.  When the loop runs out, [daysToAdd] keeps
    its initial 0. *)
Fixpoint findNextDay (currentDay : Z) (ds : list Z) (i : Z) (left : nat) : Z :=
  match left with
  | O => 0
  | S left' =>
      let nextDay := (currentDay + i) mod 7 in
      if Js.includes nextDay ds then i
      else findNextDay currentDay ds (i + 1) left'
  end.

(** [nextDate.setDate(now.getDate() + daysToAdd)] on a copy of [now].
    The setter works on the calendar of the process time zone: it takes
    the local time of the instant, builds the day that lies [daysToAdd]
    after its day (day numbers beyond the end of the month run on into the
    next), keeps the time within the day, and turns that local time back
    into an instant with the offset the zone has there. *)
Definition setDate (c : Clock) (daysToAdd : Z) : Z :=
  let t := now c + hostOffset c * msPerMinute in
  let newDate := (t / msPerDay + daysToAdd) * msPerDay + t mod msPerDay in
  newDate - hostOffsetAt c newDate * msPerMinute.

Definition calculateNextRun (clock : Clock) (schedule : Schedule) : NextRun :=
  let currentDay := getDay clock in
  let currentTime := toLocaleTimeString clock in   (* read, never used *)
  let daysToAdd := findNextDay currentDay (days schedule) 1 7 in
  let nextDate := setDate clock daysToAdd in
  {| date := isoDate nextDate;
     time := startTime schedule;
     daysFromNow := daysToAdd |}.

(** ** WebSocket connections *)

Definition set_wsClients (cs : list WsClient) (w : World) : World :=
  {| users := users w; statuses := statuses w;
     connectedDevices := connectedDevices w; wsClients := cs;
     trace := trace w |}.

(** [wss.on('connection', ...)]: [wsClients.add(ws)]; a [Set] holds a
    socket once. *)
Definition wsConnection (ws : WsClient) (w : World) : World :=
  if decide (client_id ws ∈ client_id <$> wsClients w) then w
  else set_wsClients (wsClients w ++ [ws]) w.

(** [ws.on('close', ...)] and [ws.on('error', ...)]:
    [wsClients.delete(ws)]. *)
Definition wsClosed (id : nat) (w : World) : World :=
  set_wsClients (filter (λ c, client_id c ≠ id) (wsClients w)) w.

(** ** Manual registration: POST /api/register *)

Record RegisterResponse := {
  rr_status : Z;
  rr_success : bool;
  rr_message : string;
  rr_user : option (string * string)     (* username, deviceId *)
}.

(** [errorMessage] is the [message] of the error a rejected store call
    carries. *)
Definition postRegister (fresh : nat) (clock : Clock)
    (findOutcome saveOutcome : Outcome) (errorMessage : string)
    (body : Registration) (w : World) : World * RegisterResponse :=
  let failed w :=
    (emit (ConsoleError "Registration error") w,
     {| rr_status := 500; rr_success := false;
        rr_message := "Registration failed: " +:+ errorMessage;
        rr_user := None |}) in
  if negb (Js.truthy_str (reg_username body))
     || negb (Js.truthy_str (reg_password body))
     || negb (Js.truthy_str (reg_deviceId body))
  then (w, {| rr_status := 400; rr_success := false;
              rr_message := "Username, password, and deviceId are required";
              rr_user := None |})
  else
    let u := default EmptyString (reg_username body) in
    let p := default EmptyString (reg_password body) in
    let d := default EmptyString (reg_deviceId body) in
    let w := emit (StoreCall "User.findOne") w in
    match findOutcome with
    | Rejected => failed w
    | Resolved =>
        match list_find (userMatches u d) (users w) with
        | Some _ =>
            (w, {| rr_status := 400; rr_success := false;
                   rr_message := "User or device already exists";
                   rr_user := None |})
        | None =>
            let hashedPassword := bcrypt_hash p 12 fresh in
            let user :=
              {| username := u; password := hashedPassword; deviceId := d;
                 createdAt := now clock;
                 dashboard := {| relays := [] |} |} in
            let w := emit (StoreCall "User.save") w in
            match saveNewUser saveOutcome user (users w) with
            | Some coll =>
                (set_users coll w,
                 {| rr_status := 200; rr_success := true;
                    rr_message := "User registered successfully";
                    rr_user := Some (u, d) |})
            | None => failed w
            end
        end
    end.

(** ** Dashboard read: GET /api/dashboard/:deviceId *)

Record DashboardResponse := {
  dr_status : Z;
  dr_success : bool;
  dr_message : option string;
  dr_dashboard : option Dashboard;
  dr_deviceStatus : option DeviceStatus
}.

Definition getDashboard (findUser findStatus : Outcome) (device : string)
    (w : World) : World * DashboardResponse :=
  let failed w :=
    (emit (ConsoleError "Error fetching dashboard") w,
     {| dr_status := 500; dr_success := false;
        dr_message := Some "Server error"%string; dr_dashboard := None;
        dr_deviceStatus := None |}) in
  let w := emit (StoreCall "User.findOne") w in
  match findUser with
  | Rejected => failed w
  | Resolved =>
      match list_find (λ x, deviceId x = device) (users w) with
      | None =>
          (w, {| dr_status := 404; dr_success := false;
                 dr_message := Some "User not found"%string;
                 dr_dashboard := None; dr_deviceStatus := None |})
      | Some (_, user) =>
          let w := emit (StoreCall "DeviceStatus.findOne") w in
          match findStatus with
          | Rejected => failed w
          | Resolved =>
              (w, {| dr_status := 200; dr_success := true;
                     dr_message := None;
                     dr_dashboard := Some (dashboard user);
                     dr_deviceStatus := snd <$> latestStatus device (statuses w) |})
          end
      end
  end.

(** ** Schedule routes *)

Record ScheduleBody := {
  sb_days : list Z;
  sb_startTime : string;
  sb_endTime : string;
  sb_enabled : option bool
}.

Record ScheduleResponse := {
  sr_status : Z;
  sr_success : bool;
  sr_message : string;
  sr_schedules : option (list Schedule)
}.

(** The entry [relay.schedules.push({...})] appends;
    [enabled: enabled !== undefined ? enabled : true]. *)
Definition newSchedule (b : ScheduleBody) : Schedule :=
  {| days := sb_days b; startTime := sb_startTime b; endTime := sb_endTime b;
     sched_enabled := default true (sb_enabled b) |}.

Definition with_schedules (ss : list Schedule) (r : RelayConfig) : RelayConfig :=
  {| index := index r; name := name r; image := image r; schedules := ss;
     enabled := enabled r; relay_createdAt := relay_createdAt r |}.

(** [relays.find(r => r.index === parseInt(relayIndex))].  The argument
    is the value of [parseInt]: an integer, or [None] for [NaN], which is
    equal to no index. *)
Definition findRelay (relayIndex : option Z) (rs : list RelayConfig)
    : option (nat * RelayConfig) :=
  match relayIndex with
  | Some k => list_find (λ r, index r = k) rs
  | None => None
  end.

(** What both schedule routes do around their edit of one relay's
    schedule list: find the account, find the relay, edit, save, answer
    with the relay's schedules. *)
Definition editSchedules (edit : list Schedule → list Schedule)
    (logged okMessage : string) (findOutcome saveOutcome : Outcome)
    (device : string) (relayIndex : option Z) (w : World)
    : World * ScheduleResponse :=
  let failed w :=
    (emit (ConsoleError logged) w,
     {| sr_status := 500; sr_success := false; sr_message := "Server error";
        sr_schedules := None |}) in
  let notFound w what :=
    (w, {| sr_status := 404; sr_success := false; sr_message := what;
           sr_schedules := None |}) in
  let w := emit (StoreCall "User.findOne") w in
  match findOutcome with
  | Rejected => failed w
  | Resolved =>
      match list_find (λ x, deviceId x = device) (users w) with
      | None => notFound w "User not found"%string
      | Some (i, user) =>
          match findRelay relayIndex (relays (dashboard user)) with
          | None => notFound w "Relay not found"%string
          | Some (k, relay) =>
              let ss := edit (schedules relay) in
              let d := {| relays := <[k := with_schedules ss relay]>
                                      (relays (dashboard user)) |} in
              let w := emit (StoreCall "User.save") w in
              match saveExisting saveOutcome i (with_dashboard d user)
                      (users w) with
              | None => failed w
              | Some coll =>
                  (set_users coll w,
                   {| sr_status := 200; sr_success := true;
                      sr_message := okMessage; sr_schedules := Some ss |})
              end
          end
      end
  end.

(** POST /api/dashboard/schedule/:deviceId/:relayIndex *)
Definition postSchedule (findOutcome saveOutcome : Outcome) (device : string)
    (relayIndex : option Z) (b : ScheduleBody) (w : World)
    : World * ScheduleResponse :=
  editSchedules (λ ss, ss ++ [newSchedule b]) "Error adding schedule"
    "Schedule added successfully" findOutcome saveOutcome device relayIndex w.

(** [arr.splice(start, 1)] where [start] is the value of [parseInt]:
    [NaN] counts as 0, a negative start counts from the end (not below
    0), a start past the end removes nothing. *)
Definition spliceOne {A} (start : option Z) (l : list A) : list A :=
  let len := Z.of_nat (length l) in
  let relativeStart := default 0 start in
  let actualStart :=
    if relativeStart <? 0 then Z.max (len + relativeStart) 0
    else Z.min relativeStart len in
  take (Z.to_nat actualStart) l ++ drop (S (Z.to_nat actualStart)) l.

(** DELETE /api/dashboard/schedule/:deviceId/:relayIndex/:scheduleIndex *)
Definition deleteSchedule (findOutcome saveOutcome : Outcome)
    (device : string) (relayIndex scheduleIndex : option Z) (w : World)
    : World * ScheduleResponse :=
  editSchedules (spliceOne scheduleIndex) "Error deleting schedule"
    "Schedule deleted successfully" findOutcome saveOutcome device
    relayIndex w.

(** ** Maintenance: POST /admin/clear-old-data *)

Record ClearResponse := {
  cr_status : Z;
  cr_success : bool;
  cr_message : string
}.

(** [DeviceStatus.deleteMany({ timestamp: { $lt: oneHourAgo } })] *)
Definition clearOldData (clock : Clock) (deleteOutcome : Outcome)
    (errorMessage : string) (w : World) : World * ClearResponse :=
  let oneHourAgo := now clock - 60 * 60 * 1000 in
  let w := emit (StoreCall "DeviceStatus.deleteMany") w in
  match deleteOutcome with
  | Rejected =>
      (w, {| cr_status := 500; cr_success := false;
             cr_message := errorMessage |})
  | Resolved =>
      let kept := filter (λ d, ¬ ds_timestamp d < oneHourAgo) (statuses w) in
      let deletedCount := (length (statuses w) - length kept)%nat in
      (set_statuses kept w,
       {| cr_status := 200; cr_success := true;
          cr_message := "Cleared " +:+ pretty deletedCount
                        +:+ " old device status records" |})
  end.

(** ** The server as a whole *)

(** What can arrive at the process: a bus message on one of the three
    topics, the cron tick, a socket event, or a call of one of the routes
    above. *)
Inductive Request :=
| MqttCredentials (fresh : nat) (data : Registration)
| MqttRelayStatus (data : RelayStatusMsg)
| MqttDeviceStatus (data : DeviceStatusMsg)
| CronTick
| WsConnection (ws : WsClient)
| WsClosed (id : nat)
| ApiRegister (fresh : nat) (body : Registration)
| ApiGetDashboard (device : string)
| ApiPutRelay (device : string) (body : RelayBody)
| ApiPostSchedule (device : string) (relayIndex : option Z)
    (body : ScheduleBody)
| ApiDeleteSchedule (device : string) (relayIndex scheduleIndex : option Z)
| ApiClearOldData.

(** A request together with the instant it is served at and the way its
    (at most two) store calls end. *)
Record Arrival := {
  arr_clock : Clock;
  arr_first : Outcome;
  arr_second : Outcome;
  arr_error : string;
  arr_request : Request
}.

Definition serve (a : Arrival) (w : World) : World :=
  let clock := arr_clock a in
  let o1 := arr_first a in
  let o2 := arr_second a in
  match arr_request a with
  | MqttCredentials fresh data => handleUserRegistration fresh clock o1 o2 data w
  | MqttRelayStatus data => handleRelayStatus clock o1 data w
  | MqttDeviceStatus data => handleDeviceStatus clock o1 data w
  | CronTick => schedulerTick clock o1 w
  | WsConnection ws => wsConnection ws w
  | WsClosed id => wsClosed id w
  | ApiRegister fresh body =>
      (postRegister fresh clock o1 o2 (arr_error a) body w).1
  | ApiGetDashboard device => (getDashboard o1 o2 device w).1
  | ApiPutRelay device body => (putRelay clock o1 o2 device body w).1
  | ApiPostSchedule device k body => (postSchedule o1 o2 device k body w).1
  | ApiDeleteSchedule device k i => (deleteSchedule o1 o2 device k i w).1
  | ApiClearOldData => (clearOldData clock o1 (arr_error a) w).1
  end.

(** Requests are served one at a time, in the order given. *)
Definition run (arrivals : list Arrival) (w : World) : World :=
  foldl (λ w a, serve a w) w arrivals.

(** Usernames and device identifiers are each unique in the collection. *)
Definition uniqueAccounts (coll : list User) : Prop :=
  NoDup (username <$> coll) ∧ NoDup (deviceId <$> coll).

(** ** The dashboard page (public/dashboard.js) *)

Module Client.

(** An element of [deviceStatus.relays] in the page: an element of a
    snapshot, or the payload of a relay-status message put in its place
    (which has [relay], [state] and [timer], and no [index]). *)
Inductive StatusEntry :=
| FromSnapshot (r : RelayObs)
| FromRelayStatus (m : RelayStatusMsg).

Definition entry_index (e : StatusEntry) : option Z :=
  match e with
  | FromSnapshot r => obs_index r
  | FromRelayStatus _ => None
  end.

(** Truthiness of [r.state]. *)
Definition entry_state (e : StatusEntry) : bool :=
  match e with
  | FromSnapshot r => Js.truthy_bool (obs_state r)
  | FromRelayStatus m => rs_state m
  end.

(** [ws.onmessage] for [data.type === 'relay_status']:
    [findIndex(r => r.index === data.data.relay)], then either the
    assignment of [data.data] at that position or its [push]. *)
Definition onRelayStatus (m : RelayStatusMsg) (rs : list StatusEntry)
    : list StatusEntry :=
  match list_find (λ e, entry_index e = Some (Z.of_nat (rs_relay m))) rs with
  | Some (k, _) => <[k := FromRelayStatus m]> rs
  | None => rs ++ [FromRelayStatus m]
  end.

(** [ws.onmessage] for [data.type === 'device_status']:
    [deviceStatus = data.data]. *)
Definition onDeviceStatus (m : DeviceStatusMsg) : list StatusEntry :=
  FromSnapshot <$> dm_relays m.

(** [ws.onmessage] on the relays of [deviceStatus], for the two message
    shapes the server sends; any other type tag is ignored, and a tag
    that does not fit its payload has no model ([None]). *)
Definition onmessage (msg : WsMessage) (rs : list StatusEntry)
    : option (list StatusEntry) :=
  if String.eqb (ws_type msg) "relay_status" then
    match ws_data msg with
    | RelayStatusData m => Some (onRelayStatus m rs)
    | DeviceStatusData _ => None
    end
  else if String.eqb (ws_type msg) "device_status" then
    match ws_data msg with
    | DeviceStatusData m => Some (onDeviceStatus m)
    | RelayStatusData _ => None
    end
  else Some rs.

(** The entries a lookup by [index] can see for channel [c]. *)
Definition entriesOf (c : Z) (rs : list StatusEntry) : list StatusEntry :=
  filter (λ e, entry_index e = Some c) rs.

(** [ws.onmessage] for a sequence of relay-status messages. *)
Definition onRelayStatuses (ms : list RelayStatusMsg) (rs : list StatusEntry)
    : list StatusEntry :=
  foldl (λ rs m, onRelayStatus m rs) rs ms.

(** The state [renderRelays] shows for a configured relay:
    [deviceStatus.relays.find(r => r.index === relay.index)
     || { state: false }], then [relayStatus.state ? 'ON' : 'OFF']. *)
Definition shownOn (relayIndex : Z) (rs : list StatusEntry) : bool :=
  match list_find (λ e, entry_index e = Some relayIndex) rs with
  | Some (_, e) => entry_state e
  | None => false
  end.

(** The channels [showAddRelayModal] offers: those of 0..19 that no
    configured relay has as its index. *)
Definition availableChannels (d : Dashboard) : list Z :=
  filter (λ i, i ∉ index <$> relays d) (seqZ 0 20).

(** The body [handleRelaySubmit] sends for the chosen channel. *)
Definition relayForm (i : Z) (n : string) : RelayBody :=
  {| body_index := i; body_name := Some n; body_image := None;
     body_enabled := Some true |}.

Definition dayNames : list string :=
  ["Sun"; "Mon"; "Tue"; "Wed"; "Thu"; "Fri"; "Sat"]%string.

(** [dayNames[day]] inside [join]: an index outside the array gives
    [undefined], which [join] renders as the empty string. *)
Definition dayName (day : Z) : string :=
  if day <? 0 then EmptyString
  else default EmptyString (dayNames !! Z.to_nat day).

Definition getDaysText (ds : list Z) : string :=
  if (length ds =? 7)%nat then "Every day"
  else if (length ds =? 5)%nat && negb (Js.includes 0 ds)
          && negb (Js.includes 6 ds) then "Weekdays"
  else if (length ds =? 2)%nat && Js.includes 0 ds && Js.includes 6 ds
  then "Weekends"
  else String.concat ", " (dayName <$> ds).

End Client.

(** ** Views used to state the properties *)

(** Whether the tick's test passes for one schedule, given the captured
    day and time. *)
Definition scheduleFires (currentDay : Z) (currentTime : string)
    (s : Schedule) : bool :=
  sched_enabled s
  && (Js.includes currentDay (days s)
      && (Js.str_ge currentTime (startTime s)
          && Js.str_le currentTime (endTime s))).

Definition onCommand (user : User) (relay : RelayConfig) : ControlMsg :=
  {| cm_deviceId := deviceId user; cm_relay := index relay;
     cm_action := "on"; cm_duration := None |}.

Definition scheduleCommands (currentDay : Z) (currentTime : string)
    (user : User) (relay : RelayConfig) (s : Schedule) : list ControlMsg :=
  if scheduleFires currentDay currentTime s then [onCommand user relay] else [].

Definition relayCommands (currentDay : Z) (currentTime : string)
    (user : User) (relay : RelayConfig) : list ControlMsg :=
  if relayEnabled relay
  then schedules relay ≫= scheduleCommands currentDay currentTime user relay
  else [].

Definition userCommands (currentDay : Z) (currentTime : string)
    (user : User) : list ControlMsg :=
  relays (dashboard user) ≫= relayCommands currentDay currentTime user.

(** The commands one pass publishes, in order. *)
Definition tickCommands (currentDay : Z) (currentTime : string)
    (found : list User) : list ControlMsg :=
  found ≫= userCommands currentDay currentTime.

Definition publishAll (ms : list ControlMsg) (w : World) : World :=
  foldl (λ w m, emit (MqttPublish "green-tech/relay-control" m) w) w ms.

(** The three fields a registration message is read for. *)
Definition reg_u (data : Registration) : string :=
  default EmptyString (reg_username data).
Definition reg_p (data : Registration) : string :=
  default EmptyString (reg_password data).
Definition reg_d (data : Registration) : string :=
  default EmptyString (reg_deviceId data).

(** All three fields are present (and not empty). *)
Definition validRegistration (data : Registration) : bool :=
  Js.truthy_str (reg_username data)
  && Js.truthy_str (reg_password data)
  && Js.truthy_str (reg_deviceId data).

(** The stored accounts whose username or deviceId is the message's. *)
Definition accountsMatching (data : Registration) (coll : list User)
    : list User :=
  filter (userMatches (reg_u data) (reg_d data)) coll.

(** The account a first registration creates. *)
Definition newAccount (fresh : nat) (clock : Clock) (data : Registration)
    : User :=
  {| username := reg_u data; password := bcrypt_hash (reg_p data) 12 fresh;
     deviceId := reg_d data; createdAt := now clock;
     dashboard := {| relays := [] |} |}.

(** The sockets a broadcast reaches: those whose state is [OPEN]. *)
Definition openClients (w : World) : list nat :=
  client_id <$> filter (λ c, readyState c = OPEN) (wsClients w).

(** One request to the relay configuration route, with the instant it is
    served at and the way its two store calls end. *)
Record PutRequest := {
  pr_clock : Clock;
  pr_find : Outcome;
  pr_save : Outcome;
  pr_device : string;
  pr_body : RelayBody
}.

(** Requests served one after the other. *)
Definition putRelays (reqs : list PutRequest) (w : World) : World :=
  foldl (λ w r,
           (putRelay (pr_clock r) (pr_find r) (pr_save r) (pr_device r)
              (pr_body r) w).1)
        w reqs.

(** No dashboard holds two relay entries with one index. *)
Definition distinctIndices (coll : list User) : Prop :=
  Forall (λ u, NoDup (index <$> relays (dashboard u))) coll.

(** What a schedule route may change: with [edit] the change it makes
    to one schedule list, the answer [res] for the request on [w] edits
    at most the schedules of the relay the request names, and only when
    it answers 200. *)
Definition editsOneRelay (w : World) (device : string)
    (relayIndex : option Z) (edit : list Schedule → list Schedule)
    (res : World * ScheduleResponse) : Prop :=
  statuses res.1 = statuses w
  ∧ length (users res.1) = length (users w)
  ∧ (sr_status res.2 = 200 ∨ users res.1 = users w)
  ∧ (relayIndex = None → sr_status res.2 ≠ 200)
  ∧ (sr_status res.2 = 200 →
     ∃ i user k relay,
       list_find (λ x, deviceId x = device) (users w) = Some (i, user)
       ∧ findRelay relayIndex (relays (dashboard user)) = Some (k, relay)
       ∧ sr_schedules res.2 = Some (edit (schedules relay))
       ∧ (λ x, schedules <$> relays (dashboard x) !! k) <$> users res.1 !! i
         = Some (Some (edit (schedules relay))))
  ∧ ∀ j x, users w !! j = Some x →
      ∃ x', users res.1 !! j = Some x'
            ∧ username x' = username x ∧ password x' = password x
            ∧ deviceId x' = deviceId x ∧ createdAt x' = createdAt x
            ∧ length (relays (dashboard x')) = length (relays (dashboard x))
            ∧ ∀ k r, relays (dashboard x) !! k = Some r →
                ∃ r', relays (dashboard x') !! k = Some r'
                      ∧ index r' = index r ∧ name r' = name r
                      ∧ image r' = image r ∧ enabled r' = enabled r
                      ∧ relay_createdAt r' = relay_createdAt r
                      ∧ (schedules r' = schedules r
                         ∨ (schedules r' = edit (schedules r)
                            ∧ list_find (λ x, deviceId x = device) (users w)
                              = Some (j, x)
                            ∧ findRelay relayIndex (relays (dashboard x))
                              = Some (k, r))).

(** The ways one request can change the account collection: not at all,
    the password of one account, the dashboard of one account (keeping
    relay indices distinct if they were), or one appended account with an
    empty dashboard that clashes with no stored username or deviceId. *)
Inductive usersStep (coll coll' : list User) : Prop :=
| step_same : coll' = coll → usersStep coll coll'
| step_password i x h :
    coll !! i = Some x → coll' = <[i := with_password h x]> coll →
    usersStep coll coll'
| step_dashboard i x d :
    coll !! i = Some x →
    (NoDup (index <$> relays (dashboard x)) → NoDup (index <$> relays d)) →
    coll' = <[i := with_dashboard d x]> coll →
    usersStep coll coll'
| step_new x :
    list_find (userMatches (username x) (deviceId x)) coll = None →
    relays (dashboard x) = [] → coll' = coll ++ [x] →
    usersStep coll coll'.

(** ** Concrete installations used in the examples below *)

Module Scenario.

Definition mondayWindow : Schedule :=
  {| days := [1]; startTime := "08:00"; endTime := "08:02";
     sched_enabled := true |}.

Definition mondayAllDay : Schedule :=
  {| days := [1]; startTime := "00:00"; endTime := "23:59";
     sched_enabled := true |}.

Definition wednesdayMorning : Schedule :=
  {| days := [3]; startTime := "09:00"; endTime := "09:30";
     sched_enabled := true |}.

Definition pump (ss : list Schedule) : RelayConfig :=
  {| index := 0; name := Some "Pump"%string; image := None; schedules := ss;
     enabled := Some true; relay_createdAt := 0 |}.

Definition farm (ss : list Schedule) : User :=
  {| username := "farm"; password := bcrypt_hash "secret" 12 1;
     deviceId := "GT-001"; createdAt := 0;
     dashboard := {| relays := [pump ss] |} |}.

Definition emptyWorld : World :=
  {| users := []; statuses := []; connectedDevices := ∅; wsClients := [];
     trace := [] |}.

Definition account (u d : string) : User :=
  {| username := u; password := bcrypt_hash "initial" 12 0; deviceId := d;
     createdAt := 0; dashboard := {| relays := [pump []] |} |}.

(** Two accounts, registered one after the other. *)
Definition twoAccounts : World :=
  {| users := [account "alice" "GT-001"; account "bob" "GT-002"];
     statuses := []; connectedDevices := ∅; wsClients := []; trace := [] |}.

Definition registration (u p d : string) : Registration :=
  {| reg_username := Some u; reg_password := Some p;
     reg_deviceId := Some d |}.

Definition farmWorld (ss : list Schedule) : World :=
  {| users := [farm ss]; statuses := []; connectedDevices := ∅;
     wsClients := [{| client_id := 7; readyState := OPEN |};
                   {| client_id := 8; readyState := CLOSING |}];
     trace := [] |}.

(** The instant at which a Cairo wall clock (UTC+2 in November) shows
    [hh]:[mm] on the [n]-th day after Monday 2 November 2026, read by a
    process whose own zone is [host] minutes east of UTC. *)
Definition cairoTime (n hh mm host : Z) : Clock :=
  {| now := (20759 + n) * msPerDay + ((hh - 2) * 60 + mm) * msPerMinute;
     hostOffset := host; cairoOffset := 120; hostOffsetAt := λ _, host |}.

(** Tuesday 27 October 2026, 23:30 UTC, on a host in Africa/Cairo.  Summer
    time (UTC+3) is in force: the wall clock shows Wednesday 28 October,
    02:30.  The clocks go back by an hour at the end of Thursday
    29 October; local times from Friday 00:00 on are at UTC+2. *)
Definition beforeClockChange : Clock :=
  {| now := 20753 * msPerDay + (23 * 60 + 30) * msPerMinute;
     hostOffset := 180; cairoOffset := 180;
     hostOffsetAt := λ t, if t <? 20756 * msPerDay then 180 else 120 |}.

Definition observed (i : Z) (st : bool) : RelayObs :=
  {| obs_index := Some i; obs_state := Some st;
     obs_name := Some "Pump"%string; obs_timer := Some 0 |}.

(** A full snapshot of device GT-001 with one relay. *)
Definition snapshot (up : Z) : DeviceStatusMsg :=
  {| dm_deviceId := "GT-001"; dm_ip := Some "10.0.0.7"%string;
     dm_rssi := Some (-60); dm_uptime := Some up;
     dm_relays := [observed 0 false] |}.

(** A snapshot whose relays are listed in the order channel 1,
    channel 0. *)
Definition swappedSnapshot : DeviceStatusMsg :=
  {| dm_deviceId := "GT-001"; dm_ip := None; dm_rssi := None;
     dm_uptime := None; dm_relays := [observed 1 false; observed 0 false] |}.

Definition relayOn (c : nat) : RelayStatusMsg :=
  {| rs_deviceId := "GT-001"; rs_relay := c; rs_state := true;
     rs_timer := 30 |}.

(** Two snapshots of GT-001 arrive a minute apart. *)
Definition twoSnapshots : World :=
  handleDeviceStatus (cairoTime 0 8 1 0) Resolved (snapshot 160)
    (handleDeviceStatus (cairoTime 0 8 0 0) Resolved (snapshot 100)
       (farmWorld [])).

(** The stored form of [swappedSnapshot]. *)
Definition swappedRecord : DeviceStatus :=
  {| ds_deviceId := "GT-001"; ds_ip := None; ds_rssi := None;
     ds_uptime := None;
     ds_relays := RelaysArray [Some (observed 1 false);
                               Some (observed 0 false)];
     ds_timestamp := 0 |}.

Definition relayBody (i : Z) (n : string) : RelayBody :=
  {| body_index := i; body_name := Some n; body_image := None;
     body_enabled := Some true |}.

Definition putRequest (device : string) (i : Z) (n : string) : PutRequest :=
  {| pr_clock := cairoTime 0 9 0 0; pr_find := Resolved;
     pr_save := Resolved; pr_device := device; pr_body := relayBody i n |}.

Definition scheduleBody (ds : list Z) (a b : string) : ScheduleBody :=
  {| sb_days := ds; sb_startTime := a; sb_endTime := b;
     sb_enabled := None |}.

(** A request served at 09:00 whose store calls settle. *)
Definition arrival (r : Request) : Arrival :=
  {| arr_clock := cairoTime 0 9 0 0; arr_first := Resolved;
     arr_second := Resolved; arr_error := EmptyString; arr_request := r |}.

(** A short session: two registrations (the second repeated by hand),
    two relays, a schedule, a snapshot and a tick. *)
Definition session : list Arrival :=
  [arrival (MqttCredentials 1 (registration "alice" "pw" "GT-001"));
   arrival (MqttCredentials 2 (registration "bob" "pw" "GT-002"));
   arrival (ApiRegister 3 (registration "bob" "other" "GT-009"));
   arrival (ApiPutRelay "GT-001" (relayBody 0 "Well pump"));
   arrival (ApiPutRelay "GT-001" (relayBody 3 "Lights"));
   arrival (ApiPostSchedule "GT-001" (Some 3)
              (scheduleBody [1] "08:00" "10:00"));
   arrival (MqttDeviceStatus (snapshot 100));
   arrival CronTick].

End Scenario.

(** * Properties *)

Section Scheduler.

Variables (currentDay : Z) (currentTime : string).

Lemma publishAll_app ms1 ms2 w :
  publishAll (ms1 ++ ms2) w = publishAll ms2 (publishAll ms1 w).
Proof. unfold publishAll. apply foldl_app. Qed.

Lemma checkSchedule_publishes user relay w s :
  checkSchedule currentDay currentTime user relay w s
  = publishAll (scheduleCommands currentDay currentTime user relay s) w.
Proof.
  unfold checkSchedule, scheduleCommands, scheduleFires.
  destruct (sched_enabled s); simpl; [|reflexivity].
  destruct (Js.includes currentDay (days s)); simpl; [|reflexivity].
  destruct (Js.str_ge currentTime (startTime s)); simpl; [|reflexivity].
  destruct (Js.str_le currentTime (endTime s)); reflexivity.
Qed.

Lemma checkRelay_publishes user w relay :
  checkRelay currentDay currentTime user w relay
  = publishAll (relayCommands currentDay currentTime user relay) w.
Proof.
  unfold checkRelay, relayCommands.
  destruct (relayEnabled relay); simpl; [|reflexivity].
  generalize (schedules relay) as ss. intros ss. revert w.
  induction ss as [|s ss IH]; intros w; [reflexivity|].
  simpl. rewrite IH, checkSchedule_publishes.
  symmetry. apply publishAll_app.
Qed.

Lemma checkUser_publishes w user :
  checkUser currentDay currentTime w user
  = publishAll (userCommands currentDay currentTime user) w.
Proof.
  unfold checkUser, userCommands.
  generalize (relays (dashboard user)) as rs. intros rs. revert w.
  induction rs as [|r rs IH]; intros w; [reflexivity|].
  simpl. rewrite IH, checkRelay_publishes.
  symmetry. apply publishAll_app.
Qed.

Lemma checkSchedules_publishes found w :
  checkSchedules currentDay currentTime found w
  = publishAll (tickCommands currentDay currentTime found) w.
Proof.
  unfold checkSchedules, tickCommands. revert w.
  induction found as [|u us IH]; intros w; [reflexivity|].
  simpl. rewrite IH, checkUser_publishes.
  symmetry. apply publishAll_app.
Qed.

(** The pass fires for exactly the enabled schedules of enabled relays
    whose day set holds the captured day and whose window holds the
    captured time string. *)
Lemma tickCommands_spec found m :
  m ∈ tickCommands currentDay currentTime found ↔
  ∃ user relay s,
    user ∈ found ∧ relay ∈ relays (dashboard user) ∧ s ∈ schedules relay
    ∧ relayEnabled relay = true
    ∧ scheduleFires currentDay currentTime s = true
    ∧ m = onCommand user relay.
Proof.
  unfold tickCommands, userCommands, relayCommands, scheduleCommands.
  rewrite list_elem_of_bind. split.
  - intros (user & Hm & Hu). rewrite list_elem_of_bind in Hm.
    destruct Hm as (relay & Hm & Hr).
    destruct (relayEnabled relay) eqn:He; [|by apply elem_of_nil in Hm].
    rewrite list_elem_of_bind in Hm. destruct Hm as (s & Hm & Hs).
    destruct (scheduleFires currentDay currentTime s) eqn:Hf;
      [|by apply elem_of_nil in Hm].
    apply list_elem_of_singleton in Hm. eauto 10.
  - intros (user & relay & s & Hu & Hr & Hs & He & Hf & ->).
    exists user. split; [|done]. rewrite list_elem_of_bind.
    exists relay. split; [|done]. rewrite He, list_elem_of_bind.
    exists s. split; [|done]. rewrite Hf. by apply list_elem_of_singleton.
Qed.

Lemma tickCommands_on found :
  Forall (λ m, cm_action m = "on"%string)
         (tickCommands currentDay currentTime found).
Proof.
  apply Forall_forall. intros m Hm. apply tickCommands_spec in Hm.
  destruct Hm as (user & relay & s & _ & _ & _ & _ & _ & ->). reflexivity.
Qed.

End Scheduler.

Lemma published_app tr1 tr2 :
  published (tr1 ++ tr2) = published tr1 ++ published tr2.
Proof. unfold published. apply omap_app. Qed.

Lemma publishAll_trace ms w :
  trace (publishAll ms w)
  = trace w ++ (MqttPublish "green-tech/relay-control" <$> ms).
Proof.
  revert w. induction ms as [|m ms IH]; intros w; simpl.
  - by rewrite app_nil_r.
  - unfold publishAll in *. simpl. rewrite IH. simpl.
    by rewrite <- app_assoc.
Qed.

Lemma published_publish ms :
  published (MqttPublish "green-tech/relay-control" <$> ms) = ms.
Proof.
  induction ms as [|m ms IH]; [done|].
  rewrite fmap_cons. unfold published in *. cbn [omap list_omap].
  by rewrite IH.
Qed.

(** What one tick adds to the published commands. *)
Lemma schedulerTick_published clock findOutcome w :
  published (trace (schedulerTick clock findOutcome w))
  = published (trace w)
    ++ match findOutcome with
       | Resolved =>
           tickCommands (getDay clock) (toLocaleTimeString clock) (users w)
       | Rejected => []
       end.
Proof.
  unfold schedulerTick. destruct findOutcome; simpl.
  - rewrite checkSchedules_publishes, publishAll_trace.
    cbn [emit trace users].
    rewrite !published_app, published_publish.
    cbn [published omap]. by rewrite app_nil_r.
  - cbn [emit trace]. rewrite !published_app.
    cbn [published omap]. by rewrite !app_nil_r.
Qed.

(** C2: every relay-control command a tick of the scheduler publishes has
    action "on"; whatever the stored accounts, relays and schedules and
    whatever the clock reads, no "off" is published, also once the time
    has passed a schedule's end. *)
Theorem scheduler_only_emits_on clock findOutcome w :
  ∃ cmds,
    published (trace (schedulerTick clock findOutcome w))
    = published (trace w) ++ cmds
    ∧ Forall (λ m, cm_action m = "on"%string ∧ cm_action m ≠ "off"%string) cmds.
Proof.
  eexists. split; [apply schedulerTick_published|].
  destruct findOutcome; [|constructor].
  eapply Forall_impl; [apply tickCommands_on|].
  intros m ->. split; [reflexivity|discriminate].
Qed.

(** Relative to the two readings the tick captures, the loop does what
    the window test says: a schedule of an enabled relay fires exactly
    when it is enabled, its day set holds the captured day and the
    captured time string lies between its bounds. *)
Lemma schedulerTick_fires_iff clock w m :
  m ∈ tickCommands (getDay clock) (toLocaleTimeString clock) (users w) ↔
  ∃ user relay s,
    user ∈ users w ∧ relay ∈ relays (dashboard user) ∧ s ∈ schedules relay
    ∧ relayEnabled relay = true
    ∧ sched_enabled s = true
    ∧ Js.includes (getDay clock) (days s) = true
    ∧ Js.str_ge (toLocaleTimeString clock) (startTime s) = true
    ∧ Js.str_le (toLocaleTimeString clock) (endTime s) = true
    ∧ m = onCommand user relay.
Proof.
  rewrite tickCommands_spec. unfold scheduleFires.
  split.
  - intros (user & relay & s & Hu & Hr & Hs & He & Hf & ->).
    apply andb_prop in Hf as [H1 Hf]. apply andb_prop in Hf as [H2 Hf].
    apply andb_prop in Hf as [H3 H4]. eauto 15.
  - intros (user & relay & s & Hu & Hr & Hs & He & H1 & H2 & H3 & H4 & ->).
    exists user, relay, s. rewrite H1, H2, H3, H4. eauto 10.
Qed.

(** The time string the tick compares is eight characters long, never a
    five-character "HH:MM". *)
Lemma toLocaleTimeString_length clock :
  String.length (toLocaleTimeString clock) = 8%nat.
Proof.
  unfold toLocaleTimeString, format12.
  destruct (cairoMinuteOfDay clock / 60 <? 12); reflexivity.
Qed.

Lemma cairoMinuteOfDay_range clock : 0 ≤ cairoMinuteOfDay clock < 1440.
Proof. unfold cairoMinuteOfDay. apply Z.mod_pos_bound. lia. Qed.

(** Before 13:00 the 12-hour string is never at or below the "HH:MM"
    string of the same minute; from 13:00 on it is never at or above
    it. *)
Lemma format12_above_morning :
  forallb (λ m, negb (Js.str_le (format12 m) (format24 m))) (seqZ 0 780)
  = true.
Proof. vm_compute. reflexivity. Qed.

Lemma format12_below_afternoon :
  forallb (λ m, negb (Js.str_ge (format12 m) (format24 m))) (seqZ 780 660)
  = true.
Proof. vm_compute. reflexivity. Qed.

(** Whatever the day, a schedule never fires in the minute its window
    ends if that minute is before 13:00 Cairo time, and never in the
    minute its window starts if that minute is 13:00 or later. *)
Lemma scheduleFires_misses_bounds clock currentDay s :
  (cairoMinuteOfDay clock < 780 → endTime s = cairoHHMM clock →
   scheduleFires currentDay (toLocaleTimeString clock) s = false)
  ∧ (780 ≤ cairoMinuteOfDay clock → startTime s = cairoHHMM clock →
     scheduleFires currentDay (toLocaleTimeString clock) s = false).
Proof.
  pose proof (cairoMinuteOfDay_range clock) as Hr.
  unfold scheduleFires, toLocaleTimeString, cairoHHMM. split.
  - intros Hlt ->.
    pose proof format12_above_morning as Hall.
    rewrite forallb_forall in Hall.
    specialize (Hall (cairoMinuteOfDay clock)).
    rewrite <- list_elem_of_In, elem_of_seqZ in Hall.
    apply negb_true_iff in Hall; [|lia].
    rewrite Hall. by rewrite !andb_false_r.
  - intros Hge ->.
    pose proof format12_below_afternoon as Hall.
    rewrite forallb_forall in Hall.
    specialize (Hall (cairoMinuteOfDay clock)).
    rewrite <- list_elem_of_In, elem_of_seqZ in Hall.
    apply negb_true_iff in Hall; [|lia].
    rewrite Hall. simpl. by rewrite !andb_false_r.
Qed.

(** C1 (fails on the code): the window {days:[1], 08:00-08:02} on Monday
    2 November 2026.  The specification wants "on" at 08:02 and nothing at
    20:01.  The tick compares the 12-hour rendering of the Cairo time, so
    at 08:02 it holds "08:02 AM", which is above "08:02", and publishes
    nothing; at 20:01 it holds "08:01 PM", which lies in the window, and
    publishes "on".  The weekday is read in the zone of the process: on a
    host on UTC, at Monday 00:30 Cairo time the tick sees Sunday and an
    all-day Monday schedule does not fire. *)
Theorem scheduler_window_diverges :
  let w := Scenario.farmWorld [Scenario.mondayWindow] in
  let at0802 := Scenario.cairoTime 0 8 2 120 in
  let at2001 := Scenario.cairoTime 0 20 1 120 in
  let w' := Scenario.farmWorld [Scenario.mondayAllDay] in
  let at0030 := Scenario.cairoTime 0 0 30 0 in
  (cairoDay at0802 = 1 ∧ cairoHHMM at0802 = "08:02"%string
   ∧ toLocaleTimeString at0802 = "08:02 AM"%string
   ∧ published (trace (schedulerTick at0802 Resolved w)) = [])
  ∧ (cairoDay at2001 = 1 ∧ cairoHHMM at2001 = "20:01"%string
     ∧ toLocaleTimeString at2001 = "08:01 PM"%string
     ∧ published (trace (schedulerTick at2001 Resolved w))
       = [{| cm_deviceId := "GT-001"; cm_relay := 0; cm_action := "on";
             cm_duration := None |}])
  ∧ (cairoDay at0030 = 1 ∧ cairoHHMM at0030 = "00:30"%string
     ∧ getDay at0030 = 0
     ∧ published (trace (schedulerTick at0030 Resolved w')) = []).
Proof. vm_compute. repeat split; reflexivity. Qed.

Section NextRun.

Lemma getDay_range clock : 0 ≤ getDay clock < 7.
Proof. unfold getDay, weekday. apply Z.mod_pos_bound. lia. Qed.

(** The loop starts at [i = 1]: whenever some weekday of the schedule
    can be reached, the result lies between 1 and 7, so it never says
    "today". *)
Lemma findNextDay_today currentDay ds :
  0 ≤ currentDay < 7 →
  Js.includes currentDay ds = true →
  1 ≤ findNextDay currentDay ds 1 7 ≤ 7.
Proof.
  intros Hd Hin. cbn [findNextDay].
  replace ((currentDay + (1 + 1 + 1 + 1 + 1 + 1 + 1)) mod 7)
    with currentDay
    by (replace (currentDay + (1 + 1 + 1 + 1 + 1 + 1 + 1))
          with (currentDay + 1 * 7) by lia;
        rewrite Z.mod_add by lia; symmetry; apply Z.mod_small; lia).
  rewrite Hin.
  repeat match goal with
         | |- context [if ?b then _ else _] => destruct b
         end; lia.
Qed.

Lemma calculateNextRun_never_today clock schedule :
  Js.includes (getDay clock) (days schedule) = true →
  1 ≤ daysFromNow (calculateNextRun clock schedule) ≤ 7.
Proof.
  intros Hin. unfold calculateNextRun. cbn [daysFromNow].
  apply findNextDay_today; [apply getDay_range|done].
Qed.

(** With today as the only selected day the next occurrence is a week
    away, whatever the time. *)
Lemma calculateNextRun_same_weekday clock schedule :
  days schedule = [getDay clock] →
  daysFromNow (calculateNextRun clock schedule) = 7.
Proof.
  intros Hd. unfold calculateNextRun. cbn [daysFromNow]. rewrite Hd.
  pose proof (getDay_range clock) as Hr.
  assert (getDay clock = 0 ∨ getDay clock = 1 ∨ getDay clock = 2
          ∨ getDay clock = 3 ∨ getDay clock = 4 ∨ getDay clock = 5
          ∨ getDay clock = 6) as Hc by lia.
  destruct Hc as [-> | [-> | [-> | [-> | [-> | [-> | ->]]]]]];
    reflexivity.
Qed.

End NextRun.

(** C3 (fails on the code): Wednesday 4 November 2026, 08:00 in Cairo, a
    schedule for Wednesdays starting at 09:00.  The start time is still
    ahead, so the next run is today and [daysFromNow] should be 0; the
    loop of [calculateNextRun] starts at tomorrow and never looks at the
    time, so it answers 7 (and the date a week later).  At 10:00, after
    the start time, it answers 7 as well. *)
Theorem calculateNextRun_skips_today :
  let before := Scenario.cairoTime 2 8 0 120 in
  let after := Scenario.cairoTime 2 10 0 120 in
  getDay before = 3 ∧ cairoDay before = 3
  ∧ Js.includes (getDay before) (days Scenario.wednesdayMorning) = true
  ∧ Js.str_lt (cairoHHMM before) (startTime Scenario.wednesdayMorning) = true
  ∧ Js.str_lt (toLocaleTimeString before)
              (startTime Scenario.wednesdayMorning) = true
  ∧ calculateNextRun before Scenario.wednesdayMorning
    = {| date := "2026-11-11"; time := "09:00"; daysFromNow := 7 |}
  ∧ daysFromNow (calculateNextRun after Scenario.wednesdayMorning) = 7.
Proof. vm_compute. repeat split; reflexivity. Qed.

Section Registration.

Variables (fresh : nat) (clock : Clock) (data : Registration).

Lemma userMatches_with_password u d h x :
  userMatches u d (with_password h x) ↔ userMatches u d x.
Proof. reflexivity. Qed.

(** Replacing an element by one that passes the filter exactly when the
    old one did keeps the number of elements that pass. *)
Lemma filter_insert_length {A} (P : A → Prop) `{!∀ x, Decision (P x)}
    (l : list A) i x y :
  l !! i = Some x → (P y ↔ P x) →
  length (filter P (<[i := y]> l)) = length (filter P l).
Proof.
  revert i. induction l as [|a l IH]; intros [|i] Hi Hxy; try done.
  - simpl in Hi. injection Hi as ->. simpl.
    rewrite !filter_cons.
    destruct (decide (P y)), (decide (P x)); tauto || done.
  - simpl in Hi. simpl. rewrite !filter_cons.
    destruct (decide (P a)); simpl; by rewrite (IH i).
Qed.

Lemma list_find_None_filter {A} (P : A → Prop) `{!∀ x, Decision (P x)}
    (l : list A) :
  list_find P l = None ↔ filter P l = [].
Proof.
  rewrite list_find_None. split.
  - intros Hall. induction Hall as [|a l Ha _ IH]; [done|].
    rewrite filter_cons. by destruct (decide (P a)).
  - intros Hnil. apply Forall_forall. intros a Ha Hp.
    assert (a ∈ filter P l) as Hin by (by apply list_elem_of_filter).
    rewrite Hnil in Hin. by apply elem_of_nil in Hin.
Qed.

Lemma validRegistration_guard :
  negb (Js.truthy_str (reg_username data))
  || negb (Js.truthy_str (reg_password data))
  || negb (Js.truthy_str (reg_deviceId data))
  = negb (validRegistration data).
Proof.
  unfold validRegistration.
  by destruct (Js.truthy_str (reg_username data)),
              (Js.truthy_str (reg_password data)),
              (Js.truthy_str (reg_deviceId data)).
Qed.

(** The store after one registration message, by cases. *)
Lemma registration_users findOutcome saveOutcome w :
  users (handleUserRegistration fresh clock findOutcome saveOutcome data w)
  = if validRegistration data then
      match findOutcome, saveOutcome with
      | Resolved, Resolved =>
          match list_find (userMatches (reg_u data) (reg_d data))
                  (users w) with
          | Some (i, existing) =>
              <[i := with_password (bcrypt_hash (reg_p data) 12 fresh)
                       existing]> (users w)
          | None => users w ++ [newAccount fresh clock data]
          end
      | _, _ => users w
      end
    else users w.
Proof.
  unfold handleUserRegistration. rewrite validRegistration_guard.
  destruct (validRegistration data); [|reflexivity].
  cbn [negb]. fold (reg_u data) (reg_p data) (reg_d data).
  destruct findOutcome; [|reflexivity].
  cbn [emit users].
  destruct (list_find _ (users w)) as [[i existing]|] eqn:Hfind.
  - by destruct saveOutcome.
  - destruct saveOutcome; [|reflexivity]. unfold saveNewUser.
    cbn [username deviceId].
    destruct (decide (Exists _ (users w))) as [Hex|_]; [|reflexivity].
    exfalso. apply list_find_None in Hfind.
    apply Exists_exists in Hex as (x & Hx & Hm).
    rewrite Forall_forall in Hfind. by apply (Hfind x).
Qed.


End Registration.

(** When an account already matches, one more message leaves the number
    of accounts, and of matching accounts, as it was. *)
Lemma registration_existing fresh clock findOutcome saveOutcome data w :
  accountsMatching data (users w) ≠ [] →
  let w' := handleUserRegistration fresh clock findOutcome saveOutcome data w in
  length (users w') = length (users w)
  ∧ length (accountsMatching data (users w'))
    = length (accountsMatching data (users w)).
Proof.
  intros Hne w'. subst w'. rewrite registration_users.
  destruct (validRegistration data); [|done].
  destruct findOutcome, saveOutcome; try done.
  destruct (list_find _ (users w)) as [[i existing]|] eqn:Hfind.
  - apply list_find_Some in Hfind as (Hi & _ & _). split.
    + apply length_insert.
    + unfold accountsMatching.
      by apply (filter_insert_length _ _ _ existing).
  - apply list_find_None_filter in Hfind. by destruct Hne.
Qed.

(** A first registration that goes through leaves a matching account. *)
Lemma registration_creates fresh clock data w :
  validRegistration data = true →
  accountsMatching data (users w) = [] →
  accountsMatching data
    (users (handleUserRegistration fresh clock Resolved Resolved data w))
  = [newAccount fresh clock data].
Proof.
  intros Hv Hnone. rewrite registration_users, Hv.
  pose proof Hnone as Hfind. apply list_find_None_filter in Hfind.
  rewrite Hfind. unfold accountsMatching in *.
  rewrite filter_app, Hnone, filter_cons.
  destruct (decide _) as [_|Hn]; [done|].
  destruct Hn. by left.
Qed.

(** C4 (as amended): for a store in which at most one account matches
    the message's username or deviceId, and a message with its three
    fields present, processing the message twice (the first time with its
    store calls settled) leaves exactly one matching account, and the
    second pass adds no account.  For every store and message, the
    handler never adds an account when one matching either the username
    or the deviceId exists: the matching accounts stay as many as they
    were. *)
Theorem registration_twice_single_account :
  (∀ fresh1 fresh2 clock1 clock2 find2 save2 data w,
     validRegistration data = true →
     (length (accountsMatching data (users w)) ≤ 1)%nat →
     let w1 := handleUserRegistration fresh1 clock1 Resolved Resolved data w in
     let w2 := handleUserRegistration fresh2 clock2 find2 save2 data w1 in
     length (accountsMatching data (users w2)) = 1%nat
     ∧ length (users w2) = length (users w1))
  ∧ (∀ fresh clock findOutcome saveOutcome data w,
       accountsMatching data (users w) ≠ [] →
       let w' := handleUserRegistration fresh clock findOutcome saveOutcome
                   data w in
       length (users w') = length (users w)
       ∧ length (accountsMatching data (users w'))
         = length (accountsMatching data (users w))).
Proof.
  split; [|apply registration_existing].
  intros fresh1 fresh2 clock1 clock2 find2 save2 data w Hv Hle w1 w2.
  assert (length (accountsMatching data (users w1)) = 1%nat) as H1.
  { subst w1.
    destruct (accountsMatching data (users w)) as [|x l] eqn:Hm.
    - by rewrite registration_creates.
    - destruct (registration_existing fresh1 clock1 Resolved Resolved data w)
        as [_ Hc]; [by rewrite Hm|].
      rewrite Hc, Hm. simpl in *. lia. }
  destruct (registration_existing fresh2 clock2 find2 save2 data w1)
    as [Hlen Hc].
  { intros Hnil. by rewrite Hnil in H1. }
  subst w2. by rewrite Hc.
Qed.

Lemma registration_twice_single_account_witness :
  let data := Scenario.registration "carol" "pw" "GT-003" in
  let w1 := handleUserRegistration 1 (Scenario.cairoTime 0 8 0 0)
              Resolved Resolved data Scenario.twoAccounts in
  let w2 := handleUserRegistration 2 (Scenario.cairoTime 0 8 1 0)
              Resolved Resolved data w1 in
  (length (accountsMatching data (users w2)) = 1%nat
   ∧ length (users w2) = length (users w1))
  ∧ length (users w2) = 3%nat.
Proof.
  cbv zeta. split.
  - apply (proj1 registration_twice_single_account).
    + reflexivity.
    + vm_compute. lia.
  - destruct (proj2 registration_twice_single_account 2%nat
                (Scenario.cairoTime 0 8 1 0) Resolved Resolved
                (Scenario.registration "carol" "pw" "GT-003")
                (handleUserRegistration 1 (Scenario.cairoTime 0 8 0 0)
                   Resolved Resolved
                   (Scenario.registration "carol" "pw" "GT-003")
                   Scenario.twoAccounts)) as [Hlen _].
    + vm_compute. discriminate.
    + rewrite Hlen. vm_compute. reflexivity.
Defined.

(** After a registration that goes through, the stored password of the
    account it found or created verifies against the submitted
    plaintext. *)
Lemma registration_password_verifies fresh clock data w :
  validRegistration data = true →
  let w' := handleUserRegistration fresh clock Resolved Resolved data w in
  ∃ i x, list_find (userMatches (reg_u data) (reg_d data)) (users w')
         = Some (i, x)
         ∧ (accountsMatching data (users w) = [] ∨
            ∃ x0, list_find (userMatches (reg_u data) (reg_d data)) (users w)
                  = Some (i, x0))
         ∧ bcrypt_compare (reg_p data) (password x) = true.
Proof.
  intros Hv w'. subst w'.
  destruct (list_find (userMatches (reg_u data) (reg_d data)) (users w))
    as [[i x0]|] eqn:Hfind.
  - exists i, (with_password (bcrypt_hash (reg_p data) 12 fresh) x0).
    rewrite registration_users, Hv, Hfind.
    apply list_find_Some in Hfind as (Hi & Hm & Hfirst).
    split; [|split; [eauto|apply String.eqb_refl]].
    apply list_find_Some. split; [|split; [done|]].
    + apply list_lookup_insert_eq. by eapply lookup_lt_Some.
    + intros j y Hj Hlt. rewrite list_lookup_insert_ne in Hj by lia.
      by apply (Hfirst j y).
  - exists (length (users w)), (newAccount fresh clock data).
    rewrite registration_users, Hv, Hfind.
    pose proof Hfind as Hnone. apply list_find_None_filter in Hnone.
    split; [|split; [by left|apply String.eqb_refl]].
    apply list_find_Some. split; [|split; [by left|]].
    + by rewrite lookup_app_r, Nat.sub_diag by lia.
    + intros j y Hj Hlt. rewrite lookup_app_l in Hj by lia.
      apply list_find_None in Hfind. rewrite Forall_lookup in Hfind.
      by apply (Hfind j y).
Qed.

(** C4 (as stated, fails): with the accounts (alice, GT-001) and
    (bob, GT-002) stored, the message {alice, pw, GT-002} matches both;
    processed twice, it rewrites the password of the first and two
    matching accounts remain.  A message whose password is the empty
    string is dropped by the field check, and no account exists after
    two deliveries to an empty store. *)
Lemma registration_twice_counterexample :
  let twice data w :=
    handleUserRegistration 2 (Scenario.cairoTime 0 8 1 0) Resolved Resolved
      data
      (handleUserRegistration 1 (Scenario.cairoTime 0 8 0 0) Resolved
         Resolved data w) in
  let data := Scenario.registration "alice" "pw" "GT-002" in
  let blank := Scenario.registration "dave" "" "GT-004" in
  (validRegistration data = true
   ∧ NoDup (username <$> users Scenario.twoAccounts)
   ∧ NoDup (deviceId <$> users Scenario.twoAccounts)
   ∧ length (accountsMatching data (users (twice data Scenario.twoAccounts)))
     = 2%nat)
  ∧ length (accountsMatching blank (users (twice blank Scenario.emptyWorld)))
    = 0%nat.
Proof.
  cbv zeta. split; [|reflexivity].
  split; [reflexivity|].
  split; [|split; [|reflexivity]].
  - apply (bool_decide_unpack _). vm_compute. reflexivity.
  - apply (bool_decide_unpack _). vm_compute. reflexivity.
Qed.





Section StatusHandlers.

Variables (clock : Clock) (w : World).

(** C6: for every relay-status message, whatever it holds, the handler
    first broadcasts the payload tagged "relay_status" and only then
    calls the store; when the upsert fails (the driver rejects it, or
    the update cannot be applied) the error is logged after the
    broadcast, which stays in the trace, and the status records are
    left as they were. *)
Theorem relay_status_broadcast_first upsertOutcome (data : RelayStatusMsg) :
  let w' := handleRelayStatus clock upsertOutcome data w in
  let upsert := findOneAndUpdate upsertOutcome (now clock) data (statuses w) in
  trace w'
  = trace w
    ++ [WsBroadcast {| ws_type := "relay_status";
                       ws_data := RelayStatusData data |} (openClients w);
        StoreCall "DeviceStatus.findOneAndUpdate"]
    ++ match upsert with
       | Some _ => []
       | None => [ConsoleError "Error handling relay status"]
       end
  ∧ statuses w' = default (statuses w) upsert
  ∧ findOneAndUpdate Rejected (now clock) data (statuses w) = None
  ∧ wsClients w' = wsClients w
  ∧ users w' = users w.
Proof.
  unfold handleRelayStatus, broadcastToWebSockets, openClients.
  cbn [emit statuses wsClients trace].
  destruct (findOneAndUpdate upsertOutcome _ _ _) as [coll|];
    cbn [set_statuses emit trace statuses wsClients users default];
    rewrite <- ?app_assoc; by repeat split.
Qed.

(** C7: for every device-status message, the handler first saves the
    snapshot.  If that fails, it logs the error and does nothing else:
    no cache write, no broadcast.  If it succeeds, the cache entry of the
    device is replaced and then the payload is broadcast tagged
    "device_status", in that order. *)
Theorem device_status_persist_then_broadcast saveOutcome
    (data : DeviceStatusMsg) :
  let w' := handleDeviceStatus clock saveOutcome data w in
  let saved := saveDeviceStatus saveOutcome (now clock) data (statuses w) in
  trace w'
  = trace w
    ++ StoreCall "DeviceStatus.save"
    :: match saved with
       | None => [ConsoleError "Error handling device status"]
       | Some _ =>
           [CacheSet (dm_deviceId data);
            WsBroadcast {| ws_type := "device_status";
                           ws_data := DeviceStatusData data |} (openClients w)]
       end
  ∧ connectedDevices w'
    = match saved with
      | None => connectedDevices w
      | Some _ =>
          <[dm_deviceId data :=
              {| snap_data := data; lastSeen := now clock |}]>
            (connectedDevices w)
      end
  ∧ statuses w' = default (statuses w) saved
  ∧ saveDeviceStatus Rejected (now clock) data (statuses w) = None.
Proof.
  unfold handleDeviceStatus, broadcastToWebSockets, openClients.
  cbn [emit statuses wsClients trace].
  destruct (saveDeviceStatus saveOutcome _ _ _) as [coll|];
    cbn [set_statuses set_connectedDevices emit trace statuses wsClients
         connectedDevices default];
    rewrite <- ?app_assoc; by repeat split.
Qed.

End StatusHandlers.

Section RelayUpsert.

Variables (t : Z) (data : RelayStatusMsg).

(** The two paths of the update on an array: position [c] is written,
    every other position that existed is left alone, and the gap up to
    [c] is filled with [null]. *)
Lemma setRelayPaths_array (c : nat) (st : bool) (tm : Z) elems :
  match setRelayPaths c st tm (RelaysArray elems) with
  | Some (RelaysArray elems') =>
      length elems' = max (length elems) (S c)
      ∧ (∃ e', elems' !! c = Some (Some e')
               ∧ obs_state e' = Some st ∧ obs_timer e' = Some tm
               ∧ obs_index e' = mjoin (elems !! c) ≫= obs_index
               ∧ obs_name e' = mjoin (elems !! c) ≫= obs_name)
      ∧ (∀ j, j ≠ c → (j < length elems)%nat → elems' !! j = elems !! j)
      ∧ (∀ j, (length elems ≤ j < c)%nat → elems' !! j = Some None)
  | Some (RelaysDocument _) => False
  | None => elems !! c = Some None
  end.
Proof.
  unfold setRelayPaths.
  destruct (elems !! c) as [[e|]|] eqn:Hc; [| done |].
  - assert (c < length elems)%nat as Hlt by (by eapply lookup_lt_Some).
    split; [rewrite length_insert; lia|].
    split; [|split].
    + eexists. split; [by apply list_lookup_insert_eq|]. done.
    + intros j Hj _. by apply list_lookup_insert_ne.
    + intros j Hj. lia.
  - apply lookup_ge_None in Hc.
    split; [|split; [|split]].
    + rewrite !length_app, length_replicate. simpl. lia.
    + exists (with_state_timer st tm emptyObs). split; [|done].
      rewrite lookup_app_r by lia.
      rewrite lookup_app_r by (rewrite length_replicate; lia).
      rewrite length_replicate.
      by replace (c - length elems - (c - length elems))%nat with 0%nat
        by lia.
    + intros j _ Hj. by apply lookup_app_l.
    + intros j Hj. rewrite lookup_app_r by lia.
      rewrite lookup_app_l by (rewrite length_replicate; lia).
      apply lookup_replicate_2. lia.
Qed.

(** Which record the upsert writes: the first one of the device in
    natural order, and a new one when the device has none. *)
Lemma findOneAndUpdate_target coll coll' :
  findOneAndUpdate Resolved t data coll = Some coll' →
  match list_find (λ d, ds_deviceId d = rs_deviceId data) coll with
  | Some (i, d) =>
      length coll' = length coll
      ∧ (∀ j, j ≠ i → coll' !! j = coll !! j)
      ∧ ∃ r, setRelayPaths (rs_relay data) (rs_state data) (rs_timer data)
               (ds_relays d) = Some r
             ∧ coll' !! i = Some (with_relays_timestamp r t d)
  | None => coll' = coll ++ [createdStatus t data]
  end.
Proof.
  unfold findOneAndUpdate.
  destruct (list_find _ coll) as [[i d]|] eqn:Hfind.
  - destruct (setRelayPaths _ _ _ (ds_relays d)) as [r|] eqn:Hr; [|done].
    intros [= <-]. apply list_find_Some in Hfind as (Hi & _ & _).
    split; [apply length_insert|]. split.
    + intros j Hj. by apply list_lookup_insert_ne.
    + exists r. split; [done|].
      apply list_lookup_insert_eq. by eapply lookup_lt_Some.
  - by intros [= <-].
Qed.

(** A record is created exactly when the device has none. *)
Lemma findOneAndUpdate_creates coll coll' :
  findOneAndUpdate Resolved t data coll = Some coll' →
  (length coll' = S (length coll)
   ↔ Forall (λ d, ds_deviceId d ≠ rs_deviceId data) coll).
Proof.
  intros Hup. apply findOneAndUpdate_target in Hup.
  destruct (list_find _ coll) as [[i d]|] eqn:Hfind.
  - destruct Hup as (Hlen & _). rewrite Hlen.
    apply list_find_Some in Hfind as (Hi & Hd & _). split; [lia|].
    intros Hall. rewrite Forall_lookup in Hall. by destruct (Hall i d Hi).
  - subst coll'. rewrite length_app. simpl.
    apply list_find_None in Hfind. split; [done|lia].
Qed.

(** C10: on a status record whose [relays] is an array, the upsert of a
    relay-status message with channel number [c] writes array position
    [c]: the element there gets the state and the timer and keeps its
    [index] and [name], whatever they are; no other existing position
    changes (also not one whose stored [index] is [c]); when the array
    is shorter than [c + 1] it grows to that length, the positions in
    between being created as [null].  The update is refused only when
    position [c] holds [null]. *)
Theorem relay_status_upsert_positional coll i d elems :
  list_find (λ d, ds_deviceId d = rs_deviceId data) coll = Some (i, d) →
  ds_relays d = RelaysArray elems →
  match findOneAndUpdate Resolved t data coll with
  | Some coll' =>
      ∃ d' elems' e',
        coll' !! i = Some d' ∧ ds_relays d' = RelaysArray elems'
        ∧ length elems' = max (length elems) (S (rs_relay data))
        ∧ elems' !! rs_relay data = Some (Some e')
        ∧ obs_state e' = Some (rs_state data)
        ∧ obs_timer e' = Some (rs_timer data)
        ∧ obs_index e' = mjoin (elems !! rs_relay data) ≫= obs_index
        ∧ obs_name e' = mjoin (elems !! rs_relay data) ≫= obs_name
        ∧ (∀ j, j ≠ rs_relay data → (j < length elems)%nat →
                elems' !! j = elems !! j)
        ∧ (∀ j, (length elems ≤ j < rs_relay data)%nat →
                elems' !! j = Some None)
  | None => elems !! rs_relay data = Some None
  end.
Proof.
  intros Hfind Hrel.
  pose proof (setRelayPaths_array (rs_relay data) (rs_state data)
              (rs_timer data) elems) as Harr.
  destruct (findOneAndUpdate Resolved t data coll) as [coll'|] eqn:Hup.
  - apply findOneAndUpdate_target in Hup. rewrite Hfind in Hup.
    destruct Hup as (_ & _ & r & Hr & Hi). rewrite Hrel in Hr.
    rewrite Hr in Harr. destruct r as [elems'|]; [|done].
    destruct Harr as (Hlen & (e' & He' & Hs & Ht & Hix & Hn) & Hold & Hpad).
    exists (with_relays_timestamp (RelaysArray elems') t d), elems', e'.
    by repeat split.
  - unfold findOneAndUpdate in Hup. rewrite Hfind, Hrel in Hup.
    destruct (setRelayPaths _ _ _ (RelaysArray elems)); done.
Qed.

End RelayUpsert.

Lemma relay_status_upsert_positional_witness :
  ∃ coll' d' elems',
    findOneAndUpdate Resolved 9 (Scenario.relayOn 0) [Scenario.swappedRecord]
    = Some coll'
    ∧ coll' !! 0%nat = Some d' ∧ ds_relays d' = RelaysArray elems'
    ∧ elems' !! 0%nat
      = Some (Some (with_state_timer true 30 (Scenario.observed 1 false)))
    ∧ elems' !! 1%nat = Some (Some (Scenario.observed 0 false)).
Proof.
  pose proof (relay_status_upsert_positional 9 (Scenario.relayOn 0)
                [Scenario.swappedRecord] 0 Scenario.swappedRecord
                [Some (Scenario.observed 1 false);
                 Some (Scenario.observed 0 false)]
                eq_refl eq_refl) as H.
  destruct (findOneAndUpdate Resolved 9 (Scenario.relayOn 0)
              [Scenario.swappedRecord]) as [coll'|] eqn:Hup;
    [|discriminate H].
  destruct H as (d' & elems' & e' & Hi & Hr & Hlen & Hc & Hs & Ht & Hix & Hn
                 & Hold & Hpad).
  exists coll', d', elems'.
  split; [reflexivity|]. split; [exact Hi|]. split; [exact Hr|].
  split.
  - cbn in Hc, Hs, Ht, Hix, Hn. rewrite Hc.
    destruct e' as [ix s n tmr]. cbn in Hs, Ht, Hix, Hn. by subst.
  - apply (Hold 1%nat); simpl; lia.
Defined.

(** C8 (fails on the code): two snapshots of GT-001 are stored, the
    second a minute after the first, and a relay-status message for
    channel 0 arrives.  The most recent record by timestamp, the one the
    dashboard read picks, is the second; the upsert is given no sort and
    writes the first record in natural order, the older one, and leaves
    the most recent record as it was. *)
Theorem relay_status_updates_oldest_record :
  let before := statuses Scenario.twoSnapshots in
  let after :=
    statuses (handleRelayStatus (Scenario.cairoTime 0 8 2 0) Resolved
                (Scenario.relayOn 0) Scenario.twoSnapshots) in
  (ds_deviceId <$> before) = ["GT-001"; "GT-001"]%string
  ∧ (∃ older newer, (ds_timestamp <$> before) = [older; newer]
                    ∧ older < newer)
  ∧ fst <$> latestStatus "GT-001" before = Some 1%nat
  ∧ length after = 2%nat
  ∧ after !! 1%nat = before !! 1%nat
  ∧ after !! 0%nat ≠ before !! 0%nat
  ∧ (ds_relays <$> after !! 0%nat)
    = Some (RelaysArray
              [Some (with_state_timer true 30 (Scenario.observed 0 false))])
  ∧ (ds_timestamp <$> after !! 0%nat)
    = Some (now (Scenario.cairoTime 0 8 2 0)).
Proof.
  cbv zeta. split; [reflexivity|]. split.
  - eexists _, _. split; [vm_compute; reflexivity|]. vm_compute. reflexivity.
  - split; [vm_compute; reflexivity|]. split; [reflexivity|].
    split; [vm_compute; reflexivity|].
    split; [|split; vm_compute; reflexivity].
    vm_compute. discriminate.
Qed.

Section RelayConfiguration.

Variables (t : Z) (b : RelayBody).

Lemma list_find_index_None (rs : list RelayConfig) :
  list_find (λ r, index r = body_index b) rs = None
  ↔ body_index b ∉ index <$> rs.
Proof.
  rewrite list_find_None, Forall_forall, list_elem_of_fmap. split.
  - intros Hall (r & Hr & Hin). by apply (Hall r).
  - intros Hno r Hin Hr. apply Hno. by exists r.
Qed.

(** An entry with the index exists: the first one is configured in
    place. *)
Lemma upsertRelay_existing rs :
  body_index b ∈ index <$> rs →
  ∃ k r,
    rs !! k = Some r ∧ index r = body_index b
    ∧ (∀ k' r', (k' < k)%nat → rs !! k' = Some r' →
                index r' ≠ body_index b)
    ∧ upsertRelay t b rs = <[k := configure b r]> rs.
Proof.
  intros Hin. unfold upsertRelay.
  destruct (list_find _ rs) as [[k r]|] eqn:Hfind.
  - apply list_find_Some in Hfind as (Hk & Hr & Hfirst).
    exists k, r. repeat split; try done.
    intros k' r' Hlt Hk'. by apply (Hfirst k' r').
  - apply list_find_index_None in Hfind. done.
Qed.

(** No entry has the index: a new one is appended. *)
Lemma upsertRelay_fresh rs :
  body_index b ∉ index <$> rs →
  upsertRelay t b rs = rs ++ [newRelay t b].
Proof.
  intros Hin. unfold upsertRelay.
  apply list_find_index_None in Hin. by rewrite Hin.
Qed.

Lemma upsertRelay_indices rs :
  index <$> upsertRelay t b rs
  = if decide (body_index b ∈ index <$> rs) then index <$> rs
    else (index <$> rs) ++ [body_index b].
Proof.
  destruct (decide _) as [Hin|Hin].
  - destruct (upsertRelay_existing rs Hin) as (k & r & Hk & Hr & _ & ->).
    rewrite list_fmap_insert. apply list_insert_id.
    by rewrite list_lookup_fmap, Hk.
  - rewrite (upsertRelay_fresh rs Hin). by rewrite fmap_app.
Qed.

Lemma upsertRelay_NoDup rs :
  NoDup (index <$> rs) → NoDup (index <$> upsertRelay t b rs).
Proof.
  intros Hnd. rewrite upsertRelay_indices.
  destruct (decide _) as [Hin|Hin]; [done|].
  apply NoDup_app. split; [done|]. split; [|apply NoDup_singleton].
  intros x Hx Hx'. apply list_elem_of_singleton in Hx'. by subst.
Qed.

End RelayConfiguration.

(** The store after one request to the route. *)
Lemma putRelay_users clock findOutcome saveOutcome device b w :
  users (putRelay clock findOutcome saveOutcome device b w).1
  = match findOutcome, saveOutcome,
          list_find (λ x, deviceId x = device) (users w) with
    | Resolved, Resolved, Some (i, user) =>
        <[i := with_dashboard
                 {| relays := upsertRelay (now clock) b
                                (relays (dashboard user)) |} user]> (users w)
    | _, _, _ => users w
    end.
Proof.
  unfold putRelay. destruct findOutcome; [|reflexivity].
  cbn [emit users].
  destruct (list_find _ (users w)) as [[i user]|]; [|by destruct saveOutcome].
  by destruct saveOutcome.
Qed.

Lemma putRelay_distinct clock findOutcome saveOutcome device b w :
  distinctIndices (users w) →
  distinctIndices
    (users (putRelay clock findOutcome saveOutcome device b w).1).
Proof.
  intros Hd. rewrite putRelay_users.
  destruct findOutcome, saveOutcome; try done.
  destruct (list_find _ (users w)) as [[i user]|] eqn:Hfind; [|done].
  apply list_find_Some in Hfind as (Hi & _ & _).
  unfold distinctIndices in *. apply Forall_insert; [done|].
  cbn [with_dashboard dashboard relays].
  apply upsertRelay_NoDup. rewrite Forall_lookup in Hd. by apply (Hd i).
Qed.

(** C9: a relay-configuration write for an existing account replaces the
    account's relay list by [upsertRelay] of it.  If some entry has the
    requested index, the first such entry takes the new name, image and
    enabled flag in place: the list keeps its length, its indices and all
    its other entries.  Otherwise one entry with that index and an empty
    schedule list is appended.  Hence any sequence of such requests,
    served one after the other, keeps every dashboard free of duplicate
    indices if it was so at the start. *)
Theorem relay_write_upserts_by_index :
  (∀ clock device b w i user,
     list_find (λ x, deviceId x = device) (users w) = Some (i, user) →
     let rs := relays (dashboard user) in
     let rs' := upsertRelay (now clock) b rs in
     users (putRelay clock Resolved Resolved device b w).1
     = <[i := with_dashboard {| relays := rs' |} user]> (users w)
     ∧ (body_index b ∈ index <$> rs →
        length rs' = length rs ∧ index <$> rs' = index <$> rs
        ∧ ∃ k r, rs !! k = Some r ∧ index r = body_index b
                 ∧ (∀ k' r', (k' < k)%nat → rs !! k' = Some r' →
                             index r' ≠ body_index b)
                 ∧ rs' !! k
                   = Some {| index := index r; name := body_name b;
                             image := body_image b; schedules := schedules r;
                             enabled := body_enabled b;
                             relay_createdAt := relay_createdAt r |}
                 ∧ ∀ k', k' ≠ k → rs' !! k' = rs !! k')
     ∧ (body_index b ∉ index <$> rs →
        ∃ new, rs' = rs ++ [new] ∧ index new = body_index b
               ∧ schedules new = [] ∧ name new = body_name b
               ∧ image new = body_image b))
  ∧ (∀ reqs w,
       distinctIndices (users w) →
       distinctIndices (users (putRelays reqs w))).
Proof.
  split.
  - intros clock device b w i user Hfind rs rs'. split; [|split].
    + by rewrite putRelay_users, Hfind.
    + intros Hin. subst rs'.
      destruct (upsertRelay_existing (now clock) b rs Hin)
        as (k & r & Hk & Hr & Hfirst & Heq).
      split; [rewrite Heq; apply length_insert|].
      split; [rewrite upsertRelay_indices; by destruct (decide _)|].
      exists k, r. repeat split; try done.
      * rewrite Heq. apply list_lookup_insert_eq. by eapply lookup_lt_Some.
      * intros k' Hk'. rewrite Heq. by apply list_lookup_insert_ne.
    + intros Hin. exists (newRelay (now clock) b). subst rs'.
      by rewrite (upsertRelay_fresh _ _ _ Hin).
  - intros reqs. unfold putRelays.
    induction reqs as [|r reqs IH]; intros w Hd; [done|].
    simpl. apply IH. by apply putRelay_distinct.
Qed.

Lemma relay_write_upserts_by_index_witness :
  let reqs := [Scenario.putRequest "GT-001" 0 "Well pump";
               Scenario.putRequest "GT-001" 3 "Lights";
               Scenario.putRequest "GT-001" 3 "Garden lights";
               Scenario.putRequest "GT-002" 0 "Fan"] in
  (distinctIndices (users Scenario.twoAccounts)
   ∧ distinctIndices (users (putRelays reqs Scenario.twoAccounts))
   ∧ ((λ u, index <$> relays (dashboard u))
        <$> users (putRelays reqs Scenario.twoAccounts))
     = [[0; 3]; [0]])
  ∧ (name <$> upsertRelay (now (Scenario.cairoTime 0 9 0 0))
                (Scenario.relayBody 0 "Well pump") [Scenario.pump []])
    = [Some "Well pump"%string]
  ∧ upsertRelay (now (Scenario.cairoTime 0 9 0 0))
      (Scenario.relayBody 3 "Lights") [Scenario.pump []]
    = [Scenario.pump [];
       newRelay (now (Scenario.cairoTime 0 9 0 0))
         (Scenario.relayBody 3 "Lights")].
Proof.
  cbv zeta.
  assert (distinctIndices (users Scenario.twoAccounts)) as Hd.
  { repeat constructor; apply not_elem_of_nil. }
  split.
  { split; [exact Hd|].
    split; [exact (proj2 relay_write_upserts_by_index _ _ Hd)|].
    vm_compute. reflexivity. }
  split.
  - destruct (proj1 relay_write_upserts_by_index
                (Scenario.cairoTime 0 9 0 0) "GT-001"%string
                (Scenario.relayBody 0 "Well pump") Scenario.twoAccounts
                0%nat (Scenario.account "alice" "GT-001") eq_refl)
      as (_ & Hin & _).
    destruct Hin as (_ & _ & k & r & Hk & _ & _ & Hnew & _).
    { apply list_elem_of_here. }
    destruct k as [|k]; [|by destruct k].
    cbn in Hk. injection Hk as <-.
    apply (f_equal (fmap name)) in Hnew. cbn in Hnew.
    vm_compute. reflexivity.
  - destruct (proj1 relay_write_upserts_by_index
                (Scenario.cairoTime 0 9 0 0) "GT-001"%string
                (Scenario.relayBody 3 "Lights") Scenario.twoAccounts
                0%nat (Scenario.account "alice" "GT-001") eq_refl)
      as (_ & _ & Hout).
    destruct Hout as (new & Heq & _).
    { cbn. intros Hin. apply list_elem_of_singleton in Hin. discriminate. }
    vm_compute. reflexivity.
Defined.

(** * Further properties of the server and the page *)

(** ** Order of strings *)

Lemma ascii_compare_N (a b : ascii) :
  Ascii.compare a b = N.compare (N_of_ascii a) (N_of_ascii b).
Proof. reflexivity. Qed.

Lemma string_compare_not_Gt_trans (a b c : string) :
  String.compare a b ≠ Gt → String.compare b c ≠ Gt →
  String.compare a c ≠ Gt.
Proof.
  revert b c. induction a as [|x a IH]; intros [|y b] [|z c]; simpl;
    try done.
  rewrite !ascii_compare_N.
  destruct (N.compare_spec (N_of_ascii x) (N_of_ascii y)) as [Hxy|Hxy|Hxy];
    [| |done].
  - rewrite Hxy.
    destruct (N.compare_spec (N_of_ascii y) (N_of_ascii z)); try done.
    apply IH.
  - intros _.
    destruct (N.compare_spec (N_of_ascii y) (N_of_ascii z)) as [Hyz|Hyz|Hyz];
      [| |done]; intros _.
    + rewrite <- Hyz. by apply N.compare_lt_iff in Hxy as ->.
    + assert (N_of_ascii x < N_of_ascii z)%N as Hxz by lia.
      by apply N.compare_lt_iff in Hxz as ->.
Qed.

Lemma str_le_trans (a b c : string) :
  Js.str_le a b = true → Js.str_le b c = true → Js.str_le a c = true.
Proof.
  unfold Js.str_le, String.leb. intros Hab Hbc.
  pose proof (string_compare_not_Gt_trans a b c) as Ht.
  destruct (String.compare a b), (String.compare b c),
    (String.compare a c); try done; by destruct Ht.
Qed.

Lemma str_lt_not_le (a b : string) :
  Js.str_lt a b = true → Js.str_le b a = false.
Proof.
  unfold Js.str_lt, Js.str_le, String.ltb, String.leb.
  rewrite (String.compare_antisym a b).
  by destruct (String.compare b a).
Qed.

(** ** Scheduler *)

(** A window whose start time is above its end time (an overnight window
    such as 22:00 to 06:00, which the route accepts) never passes the
    tick's test, whatever day and time the tick holds. *)
Theorem inverted_window_never_fires currentDay currentTime s :
  Js.str_lt (endTime s) (startTime s) = true →
  scheduleFires currentDay currentTime s = false.
Proof.
  intros Hinv. apply str_lt_not_le in Hinv. unfold scheduleFires.
  destruct (Js.str_ge currentTime (startTime s)) eqn:Hge;
    [|by rewrite !andb_false_r].
  destruct (Js.str_le currentTime (endTime s)) eqn:Hle;
    [|by rewrite !andb_false_r].
  unfold Js.str_ge in Hge. fold (Js.str_le (startTime s) currentTime) in Hge.
  by rewrite (str_le_trans _ _ _ Hge Hle) in Hinv.
Qed.

Lemma inverted_window_never_fires_witness :
  scheduleFires 1 "11:30 PM"
    {| days := [1]; startTime := "22:00"; endTime := "06:00";
       sched_enabled := true |} = false.
Proof. apply inverted_window_never_fires. reflexivity. Defined.

Lemma publishAll_state ms w :
  users (publishAll ms w) = users w
  ∧ statuses (publishAll ms w) = statuses w
  ∧ connectedDevices (publishAll ms w) = connectedDevices w
  ∧ wsClients (publishAll ms w) = wsClients w.
Proof.
  revert w. induction ms as [|m ms IH]; intros w; [done|].
  unfold publishAll in *. simpl. by destruct (IH (emit (MqttPublish
    "green-tech/relay-control" m) w)) as (-> & -> & -> & ->).
Qed.

Lemma schedulerTick_state clock findOutcome w :
  let w' := schedulerTick clock findOutcome w in
  users w' = users w ∧ statuses w' = statuses w
  ∧ connectedDevices w' = connectedDevices w ∧ wsClients w' = wsClients w.
Proof.
  unfold schedulerTick. destruct findOutcome; [|done].
  rewrite checkSchedules_publishes.
  by destruct (publishAll_state
                 (tickCommands (getDay clock) (toLocaleTimeString clock)
                    (users (emit (StoreCall "User.find") w)))
                 (emit (StoreCall "User.find") w)) as (-> & -> & -> & ->).
Qed.

(** A loaded relay answers [false] for [enabled] only when it is stored
    with [enabled: false]; stored without the field it answers [true]. *)
Lemma relayEnabled_stored relay :
  relayEnabled relay = true ↔ enabled relay ≠ Some false.
Proof.
  unfold relayEnabled. by destruct (enabled relay) as [[]|]; cbn.
Qed.

(** A tick reads the accounts and writes nothing: accounts, status
    records, cache and sockets are as before.  To the trace it adds the
    store call and then either one relay-control publish per schedule that
    passes the test, in the order of accounts, relays and schedules, or,
    when the read fails, the error log alone.  The schedules published for
    are those that pass the test and belong to a relay not stored with
    [enabled: false]: a relay stored without the field (as the
    configuration route leaves it when the request has no [enabled]) is
    commanded like one stored with [enabled: true]. *)
Theorem tick_only_publishes clock findOutcome w :
  let w' := schedulerTick clock findOutcome w in
  let cmds := tickCommands (getDay clock) (toLocaleTimeString clock)
                (users w) in
  users w' = users w ∧ statuses w' = statuses w
  ∧ connectedDevices w' = connectedDevices w ∧ wsClients w' = wsClients w
  ∧ trace w'
    = trace w
      ++ StoreCall "User.find"
      :: match findOutcome with
         | Resolved => MqttPublish "green-tech/relay-control" <$> cmds
         | Rejected => [ConsoleError "Scheduler error"]
         end
  ∧ ∀ m, m ∈ cmds ↔
      ∃ user relay s,
        user ∈ users w ∧ relay ∈ relays (dashboard user)
        ∧ s ∈ schedules relay
        ∧ enabled relay ≠ Some false
        ∧ scheduleFires (getDay clock) (toLocaleTimeString clock) s = true
        ∧ m = {| cm_deviceId := deviceId user; cm_relay := index relay;
                 cm_action := "on"; cm_duration := None |}.
Proof.
  cbv zeta.
  destruct (schedulerTick_state clock findOutcome w) as (-> & -> & -> & ->).
  repeat (split; [done|]).
  split.
  - unfold schedulerTick. destruct findOutcome.
    + rewrite checkSchedules_publishes, publishAll_trace.
      cbn [emit users trace]. by rewrite <- app_assoc.
    + cbn [emit trace]. by rewrite <- app_assoc.
  - intros m. rewrite tickCommands_spec. split.
    + intros (user & relay & s & Hu & Hr & Hs & He & Hf & ->).
      apply relayEnabled_stored in He. by exists user, relay, s.
    + intros (user & relay & s & Hu & Hr & Hs & He & Hf & ->).
      apply relayEnabled_stored in He. by exists user, relay, s.
Qed.

Lemma ticks_published (clocks : list Clock) w :
  published (trace (foldl (λ w c, schedulerTick c Resolved w) w clocks))
  = published (trace w)
    ++ (clocks ≫= λ c, tickCommands (getDay c) (toLocaleTimeString c)
                         (users w)).
Proof.
  revert w. induction clocks as [|c clocks IH]; intros w.
  - simpl. by rewrite app_nil_r.
  - cbn [foldl]. rewrite IH, schedulerTick_published, bind_cons.
    destruct (schedulerTick_state c Resolved w) as (-> & _).
    by rewrite <- app_assoc.
Qed.

(** A message that every pass publishes is published at least once per
    pass. *)
Lemma bind_count {A} (f : A → list ControlMsg) (m : ControlMsg) (l : list A) :
  Forall (λ a, m ∈ f a) l →
  (length l ≤ length (filter (λ x, x = m) (l ≫= f)))%nat.
Proof.
  induction 1 as [|a l Ha _ IH]; [done|].
  rewrite bind_cons, filter_app, length_app. cbn [length].
  assert (m ∈ filter (λ x, x = m) (f a)) as Hin
    by (by apply list_elem_of_filter).
  destruct (filter (λ x, x = m) (f a)); [by apply elem_of_nil in Hin|].
  cbn [length]. lia.
Qed.

(** Ticks keep no memory of what they have published: after any number
    of ticks, the published commands are those of each tick in turn, each
    computed from the stored accounts and that tick's readings alone.  So
    a window that is still open is commanded again every time: for a
    schedule of a relay not stored with [enabled: false] (stored with
    [enabled: true], or without the field) that passes the test at every
    one of the ticks, the relay's "on" command is published at least once
    per tick. *)
Theorem ticks_republish (clocks : list Clock) w :
  let w' := foldl (λ w c, schedulerTick c Resolved w) w clocks in
  let added := drop (length (published (trace w))) (published (trace w')) in
  added = (clocks ≫= λ c, tickCommands (getDay c) (toLocaleTimeString c)
                            (users w))
  ∧ published (trace w') = published (trace w) ++ added
  ∧ ∀ user relay s,
      user ∈ users w → relay ∈ relays (dashboard user) →
      s ∈ schedules relay → enabled relay ≠ Some false →
      Forall (λ c, scheduleFires (getDay c) (toLocaleTimeString c) s = true)
             clocks →
      (length clocks
       ≤ length (filter (λ m, m = {| cm_deviceId := deviceId user;
                                     cm_relay := index relay;
                                     cm_action := "on";
                                     cm_duration := None |}) added))%nat.
Proof.
  cbv zeta. rewrite ticks_published, drop_app_length.
  split; [done|]. split; [done|].
  intros user relay s Hu Hr Hs He Hall. apply bind_count.
  eapply Forall_impl; [exact Hall|]. intros c Hf. cbn beta.
  apply tickCommands_spec. exists user, relay, s.
  split; [done|]. split; [done|]. split; [done|].
  split; [by apply relayEnabled_stored|]. by split.
Qed.

(** The pump of the farm reconfigured by a request without [enabled],
    then two ticks a minute apart on Monday morning inside an all-day
    Monday schedule: the entry is stored without the flag and both ticks
    command it. *)
Lemma ticks_republish_witness :
  let body := {| body_index := 0; body_name := Some "Pump"%string;
                 body_image := None; body_enabled := None |} in
  let w := (putRelay (Scenario.cairoTime 0 8 0 120) Resolved Resolved "GT-001"
              body (Scenario.farmWorld [Scenario.mondayAllDay])).1 in
  let clocks := [Scenario.cairoTime 0 8 30 120; Scenario.cairoTime 0 8 31 120] in
  let w' := foldl (λ w c, schedulerTick c Resolved w) w clocks in
  (enabled <$> relays (dashboard (Scenario.farm [Scenario.mondayAllDay]))
   = [Some true]
   ∧ (λ u, enabled <$> relays (dashboard u)) <$> users w = [[None]])
  ∧ (2 ≤ length (filter (λ m, m = {| cm_deviceId := "GT-001"; cm_relay := 0;
                                     cm_action := "on";
                                     cm_duration := None |})
                   (drop (length (published (trace w)))
                      (published (trace w')))))%nat.
Proof.
  cbv zeta. split; [split; reflexivity|].
  apply (proj2 (proj2 (ticks_republish
                  [Scenario.cairoTime 0 8 30 120; Scenario.cairoTime 0 8 31 120]
                  (putRelay (Scenario.cairoTime 0 8 0 120) Resolved Resolved
                     "GT-001"
                     {| body_index := 0; body_name := Some "Pump"%string;
                        body_image := None; body_enabled := None |}
                     (Scenario.farmWorld [Scenario.mondayAllDay])).1))
           (with_dashboard
              {| relays := [configure
                              {| body_index := 0;
                                 body_name := Some "Pump"%string;
                                 body_image := None; body_enabled := None |}
                              (Scenario.pump [Scenario.mondayAllDay])] |}
              (Scenario.farm [Scenario.mondayAllDay]))
           (configure
              {| body_index := 0; body_name := Some "Pump"%string;
                 body_image := None; body_enabled := None |}
              (Scenario.pump [Scenario.mondayAllDay]))
           Scenario.mondayAllDay).
  - vm_compute. apply list_elem_of_singleton. reflexivity.
  - apply list_elem_of_singleton. reflexivity.
  - apply list_elem_of_singleton. reflexivity.
  - discriminate.
  - repeat constructor.
Defined.

(** ** calculateNextRun *)

Lemma findNextDay_spec currentDay ds i left :
  let n := findNextDay currentDay ds i left in
  (n = 0 ∧ 0 < i ∧ ∀ j, i ≤ j < i + Z.of_nat left →
                       Js.includes ((currentDay + j) mod 7) ds = false)
  ∨ (i ≤ n < i + Z.of_nat left
     ∧ Js.includes ((currentDay + n) mod 7) ds = true
     ∧ ∀ j, i ≤ j < n → Js.includes ((currentDay + j) mod 7) ds = false)
  ∨ i ≤ 0.
Proof.
  cbv zeta. revert i. induction left as [|left IH]; intros i.
  - cbn [findNextDay]. destruct (decide (0 < i)); [|right; right; lia].
    left. split; [done|]. split; [done|]. intros j Hj. exfalso. lia.
  - cbn [findNextDay]. rewrite Nat2Z.inj_succ.
    destruct (decide (0 < i)) as [Hi0|]; [|right; right; lia].
    destruct (Js.includes ((currentDay + i) mod 7) ds) eqn:Hi.
    + right. left. split; [lia|]. split; [done|]. intros j Hj.
      exfalso. lia.
    + destruct (IH (i + 1))
        as [(Hn & Hpos & Hnone) | [(Hr & Hin & Hnone) | Hle]].
      * left. split; [done|]. split; [lia|]. intros j Hj.
        destruct (decide (j = i)) as [->|]; [done|]. apply Hnone. lia.
      * right. left. split; [lia|]. split; [done|]. intros j Hj.
        destruct (decide (j = i)) as [->|]; [done|]. apply Hnone. lia.
      * exfalso. lia.
Qed.

(** Moving the date by whole days moves the local wall-clock time by
    that many times 24 hours. *)
Lemma setDate_local clock k :
  let t := now clock + hostOffset clock * msPerMinute + k * msPerDay in
  setDate clock k = t - hostOffsetAt clock t * msPerMinute.
Proof.
  cbv zeta. unfold setDate. cbv zeta.
  set (t := now clock + hostOffset clock * msPerMinute).
  assert ((t / msPerDay + k) * msPerDay + t mod msPerDay = t + k * msPerDay)
    as -> by (pose proof (Z.div_mod t msPerDay); unfold msPerDay in *; lia).
  reflexivity.
Qed.

(** [calculateNextRun] answers with the first of the next seven days
    whose weekday is selected, counted from tomorrow (1) to the same
    weekday next week (7), and with 0 exactly when none of them is
    selected (an empty day set, or only numbers outside 0..6); the time is
    the schedule's start time.  The date is the UTC date of the instant at
    which the wall clock of the process zone shows the present time that
    many days later; when the zone has the same offset there as now, this
    is the UTC date of now plus that many times 24 hours. *)
Theorem calculateNextRun_first_selected_day clock schedule :
  let r := calculateNextRun clock schedule in
  let selected i :=
    Js.includes ((getDay clock + i) mod 7) (days schedule) in
  let local :=
    now clock + hostOffset clock * msPerMinute + daysFromNow r * msPerDay in
  time r = startTime schedule
  ∧ date r = isoDate (local - hostOffsetAt clock local * msPerMinute)
  ∧ (hostOffsetAt clock local = hostOffset clock →
     date r = isoDate (now clock + daysFromNow r * msPerDay))
  ∧ ((daysFromNow r = 0 ∧ ∀ i, 1 ≤ i ≤ 7 → selected i = false)
     ∨ (1 ≤ daysFromNow r ≤ 7 ∧ selected (daysFromNow r) = true
        ∧ ∀ i, 1 ≤ i < daysFromNow r → selected i = false)).
Proof.
  cbv zeta. unfold calculateNextRun. cbn [time date daysFromNow].
  rewrite setDate_local. cbv zeta.
  split; [done|]. split; [done|]. split.
  { intros ->. f_equal. lia. }
  destruct (findNextDay_spec (getDay clock) (days schedule) 1 7)
    as [(Hn & _ & Hnone) | [(Hr & Hin & Hnone) | Hle]]; [| |lia].
  - left. split; [done|]. intros i Hi. apply Hnone. lia.
  - right. split; [lia|]. split; [done|]. intros i Hi. by apply Hnone.
Qed.

(** Wednesday 4 November 2026, 08:00 on a host that stays at UTC+2: the
    date is that of the instant a week later.  Across the end of summer
    time the two part: asked on Tuesday 27 October at 23:30 UTC (Wednesday
    02:30 on the wall clock), the same wall-clock time a week later is
    Wednesday 4 November, 00:30 UTC, a day after the date of the instant
    seven times 24 hours on. *)
Lemma calculateNextRun_first_selected_day_witness :
  (date (calculateNextRun (Scenario.cairoTime 2 8 0 120)
           Scenario.wednesdayMorning)
   = isoDate (now (Scenario.cairoTime 2 8 0 120) + 7 * msPerDay))
  ∧ (daysFromNow (calculateNextRun Scenario.beforeClockChange
                    Scenario.wednesdayMorning) = 7
     ∧ date (calculateNextRun Scenario.beforeClockChange
               Scenario.wednesdayMorning) = "2026-11-04"%string
     ∧ isoDate (now Scenario.beforeClockChange + 7 * msPerDay)
       = "2026-11-03"%string).
Proof.
  split.
  - apply (proj1 (proj2 (proj2 (calculateNextRun_first_selected_day
                                  (Scenario.cairoTime 2 8 0 120)
                                  Scenario.wednesdayMorning)))).
    reflexivity.
  - split; [reflexivity|]. split; [|vm_compute; reflexivity].
    rewrite (proj1 (proj2 (calculateNextRun_first_selected_day
                             Scenario.beforeClockChange
                             Scenario.wednesdayMorning))).
    vm_compute. reflexivity.
Defined.

(** ** Accounts *)

Lemma with_password_names h (coll : list User) i x :
  coll !! i = Some x →
  username <$> <[i := with_password h x]> coll = username <$> coll
  ∧ deviceId <$> <[i := with_password h x]> coll = deviceId <$> coll.
Proof.
  intros Hi. rewrite !list_fmap_insert. split; apply list_insert_id;
    by rewrite list_lookup_fmap, Hi.
Qed.

Lemma with_dashboard_names d (coll : list User) i x :
  coll !! i = Some x →
  username <$> <[i := with_dashboard d x]> coll = username <$> coll
  ∧ deviceId <$> <[i := with_dashboard d x]> coll = deviceId <$> coll.
Proof.
  intros Hi. rewrite !list_fmap_insert. split; apply list_insert_id;
    by rewrite list_lookup_fmap, Hi.
Qed.

Lemma uniqueAccounts_snoc (coll : list User) x :
  uniqueAccounts coll →
  list_find (userMatches (username x) (deviceId x)) coll = None →
  uniqueAccounts (coll ++ [x]).
Proof.
  intros [Hu Hd] Hfind. apply list_find_None in Hfind.
  rewrite Forall_forall in Hfind.
  unfold uniqueAccounts. rewrite !fmap_app. cbn [fmap list_fmap].
  split; apply NoDup_app; (split; [done|]);
    (split; [|apply NoDup_singleton]);
    intros y Hy Hy'; apply list_elem_of_singleton in Hy'; subst y;
    apply list_elem_of_fmap in Hy as (z & Hz & Hin);
    apply (Hfind z Hin); [by left|by right].
Qed.

Lemma registration_unique fresh clock findOutcome saveOutcome data w :
  uniqueAccounts (users w) →
  uniqueAccounts
    (users (handleUserRegistration fresh clock findOutcome saveOutcome
              data w)).
Proof.
  intros Hu. rewrite registration_users.
  destruct (validRegistration data); [|done].
  destruct findOutcome, saveOutcome; try done.
  destruct (list_find _ (users w)) as [[i x]|] eqn:Hfind.
  - apply list_find_Some in Hfind as (Hi & _ & _).
    unfold uniqueAccounts.
    by destruct (with_password_names
                   (bcrypt_hash (reg_p data) 12 fresh) _ _ _ Hi)
      as [-> ->].
  - by apply uniqueAccounts_snoc.
Qed.

(** The manual route, by cases. *)
Lemma postRegister_cases fresh clock findOutcome saveOutcome err body w :
  postRegister fresh clock findOutcome saveOutcome err body w
  = if validRegistration body then
      let w1 := emit (StoreCall "User.findOne") w in
      match findOutcome with
      | Rejected =>
          (emit (ConsoleError "Registration error") w1,
           {| rr_status := 500; rr_success := false;
              rr_message := "Registration failed: " +:+ err;
              rr_user := None |})
      | Resolved =>
          match accountsMatching body (users w) with
          | _ :: _ =>
              (w1, {| rr_status := 400; rr_success := false;
                      rr_message := "User or device already exists";
                      rr_user := None |})
          | [] =>
              let w2 := emit (StoreCall "User.save") w1 in
              match saveOutcome with
              | Resolved =>
                  (set_users (users w ++ [newAccount fresh clock body]) w2,
                   {| rr_status := 200; rr_success := true;
                      rr_message := "User registered successfully";
                      rr_user := Some (reg_u body, reg_d body) |})
              | Rejected =>
                  (emit (ConsoleError "Registration error") w2,
                   {| rr_status := 500; rr_success := false;
                      rr_message := "Registration failed: " +:+ err;
                      rr_user := None |})
              end
          end
      end
    else
      (w, {| rr_status := 400; rr_success := false;
             rr_message := "Username, password, and deviceId are required";
             rr_user := None |}).
Proof.
  unfold postRegister. rewrite validRegistration_guard.
  destruct (validRegistration body); [|reflexivity].
  cbn [negb]. fold (reg_u body) (reg_p body) (reg_d body).
  destruct findOutcome; [|reflexivity].
  cbn [emit users].
  destruct (list_find _ (users w)) as [[i x]|] eqn:Hfind.
  - destruct (accountsMatching body (users w)) eqn:Hm; [|reflexivity].
    apply list_find_None_filter in Hm. congruence.
  - pose proof Hfind as Hm. apply list_find_None_filter in Hm.
    fold (accountsMatching body (users w)) in Hm. rewrite Hm.
    destruct saveOutcome; [|reflexivity]. unfold saveNewUser.
    cbn [username deviceId].
    destruct (decide (Exists _ (users w))) as [Hex|_]; [|reflexivity].
    exfalso. apply list_find_None in Hfind.
    apply Exists_exists in Hex as (y & Hy & Hmatch).
    rewrite Forall_forall in Hfind. by apply (Hfind y).
Qed.

(** The manual registration route never touches a stored account: it
    answers 200 and appends the new account exactly when the three fields
    are present, both store calls settle and no stored account has the
    username or the deviceId; in every other case the accounts are as
    before, and the answer is 400 for a missing field or a taken username
    or deviceId and 500 for a rejected store call. *)
Theorem manual_registration_only_appends fresh clock findOutcome saveOutcome
    err body w :
  let result := postRegister fresh clock findOutcome saveOutcome err body w in
  let fits :=
    bool_decide (findOutcome = Resolved ∧ saveOutcome = Resolved
                 ∧ accountsMatching body (users w) = [])
    && validRegistration body in
  users result.1
  = (if fits then users w ++ [newAccount fresh clock body] else users w)
  ∧ rr_success result.2 = fits
  ∧ rr_status result.2
    = (if fits then 200
       else if negb (validRegistration body) then 400
       else if bool_decide (findOutcome = Rejected) then 500
       else if bool_decide (accountsMatching body (users w) = []) then 500
       else 400)
  ∧ statuses result.1 = statuses w
  ∧ connectedDevices result.1 = connectedDevices w.
Proof.
  cbv zeta. rewrite postRegister_cases.
  destruct (validRegistration body); [|by rewrite andb_false_r].
  rewrite andb_true_r. cbn [negb].
  destruct findOutcome, saveOutcome,
    (accountsMatching body (users w)) eqn:Hm;
    repeat case_bool_decide; cbn; try done; intuition congruence.
Qed.

(** ** Status records *)

Lemma latestStatus_fold device (l seen : list (nat * DeviceStatus)) best :
  match best with
  | None => ∀ x, x ∈ seen → ds_deviceId x.2 ≠ device
  | Some b =>
      b ∈ seen ∧ ds_deviceId b.2 = device
      ∧ ∀ x, x ∈ seen → ds_deviceId x.2 = device →
             ds_timestamp x.2 ≤ ds_timestamp b.2
  end →
  match foldl (λ best cand,
                 if decide (ds_deviceId cand.2 = device) then
                   match best with
                   | Some b => if ds_timestamp b.2 <? ds_timestamp cand.2
                               then Some cand else best
                   | None => Some cand
                   end
                 else best) best l with
  | None => ∀ x, x ∈ seen ++ l → ds_deviceId x.2 ≠ device
  | Some b =>
      b ∈ seen ++ l ∧ ds_deviceId b.2 = device
      ∧ ∀ x, x ∈ seen ++ l → ds_deviceId x.2 = device →
             ds_timestamp x.2 ≤ ds_timestamp b.2
  end.
Proof.
  revert seen best. induction l as [|c l IH]; intros seen best Hinv.
  - simpl. by rewrite app_nil_r.
  - cbn [foldl].
    replace (seen ++ c :: l) with ((seen ++ [c]) ++ l)
      by (by rewrite <- app_assoc).
    apply IH.
    destruct (decide (ds_deviceId c.2 = device)) as [Hc|Hc].
    + destruct best as [b|].
      * destruct Hinv as (Hb & Hdev & Hmax).
        destruct (ds_timestamp b.2 <? ds_timestamp c.2) eqn:Hlt.
        -- apply Z.ltb_lt in Hlt. split; [set_solver|]. split; [done|].
           intros x Hx Hxd. apply elem_of_app in Hx as [Hx|Hx].
           ++ specialize (Hmax x Hx Hxd). lia.
           ++ apply list_elem_of_singleton in Hx. subst. lia.
        -- apply Z.ltb_ge in Hlt. split; [set_solver|]. split; [done|].
           intros x Hx Hxd. apply elem_of_app in Hx as [Hx|Hx].
           ++ by apply Hmax.
           ++ apply list_elem_of_singleton in Hx. by subst.
      * split; [set_solver|]. split; [done|].
        intros x Hx Hxd. apply elem_of_app in Hx as [Hx|Hx].
        -- by destruct (Hinv x Hx).
        -- apply list_elem_of_singleton in Hx. subst. lia.
    + destruct best as [b|].
      * destruct Hinv as (Hb & Hdev & Hmax). split; [set_solver|].
        split; [done|]. intros x Hx Hxd.
        apply elem_of_app in Hx as [Hx|Hx]; [by apply Hmax|].
        apply list_elem_of_singleton in Hx. by subst.
      * intros x Hx. apply elem_of_app in Hx as [Hx|Hx]; [by apply Hinv|].
        apply list_elem_of_singleton in Hx. by subst.
Qed.

Lemma latestStatus_newest device coll :
  match latestStatus device coll with
  | None => ∀ d, d ∈ coll → ds_deviceId d ≠ device
  | Some (i, d) =>
      coll !! i = Some d ∧ ds_deviceId d = device
      ∧ ∀ d', d' ∈ coll → ds_deviceId d' = device →
              ds_timestamp d' ≤ ds_timestamp d
  end.
Proof.
  pose proof (latestStatus_fold device (imap pair coll) [] None) as Hfold.
  unfold latestStatus.
  destruct (foldl _ None (imap pair coll)) as [[i d]|].
  - destruct Hfold as (Hin & Hdev & Hmax); [by intros x Hx%elem_of_nil|].
    rewrite app_nil_l in Hin, Hmax.
    apply elem_of_lookup_imap in Hin as (j & y & [= -> ->] & Hj).
    split; [done|]. split; [done|]. intros d' Hd' Hdev'.
    apply list_elem_of_lookup in Hd' as (k & Hk).
    apply (Hmax (k, d')); [|done].
    apply elem_of_lookup_imap. eauto.
  - intros d Hd. apply list_elem_of_lookup in Hd as (k & Hk).
    apply (Hfold ltac:(by intros x Hx%elem_of_nil) (k, d)).
    rewrite app_nil_l. apply elem_of_lookup_imap. eauto.
Qed.


(** The device-status handler only ever appends: when the save goes
    through, the collection is the old one followed by one record built
    from the payload and stamped with the current time, so a message
    delivered twice is stored twice; when the save is rejected, or the
    deviceId is empty, the collection is as before.  Accounts are never
    touched. *)
Theorem device_status_appends clock saveOutcome data w :
  let w' := handleDeviceStatus clock saveOutcome data w in
  users w' = users w
  ∧ statuses w'
    = (if bool_decide (saveOutcome = Resolved ∧ dm_deviceId data ≠ ""%string)
       then statuses w
            ++ [{| ds_deviceId := dm_deviceId data; ds_ip := dm_ip data;
                   ds_rssi := dm_rssi data; ds_uptime := dm_uptime data;
                   ds_relays := RelaysArray (Some <$> dm_relays data);
                   ds_timestamp := now clock |}]
       else statuses w).
Proof.
  cbv zeta. unfold handleDeviceStatus, saveDeviceStatus.
  cbn [emit statuses].
  destruct saveOutcome.
  - destruct (String.eqb_spec (dm_deviceId data) "") as [He|Hne].
    + rewrite bool_decide_eq_false_2 by (intros [_ ?]; done). done.
    + by rewrite bool_decide_eq_true_2.
  - by rewrite bool_decide_eq_false_2 by (intros [? _]; done).
Qed.

Lemma handleRelayStatus_statuses clock upsertOutcome data w :
  statuses (handleRelayStatus clock upsertOutcome data w)
  = default (statuses w)
      (findOneAndUpdate upsertOutcome (now clock) data (statuses w)).
Proof.
  unfold handleRelayStatus, broadcastToWebSockets. cbn [emit statuses].
  by destruct (findOneAndUpdate _ _ _ _).
Qed.

(** The relay-status handler never touches accounts or the device cache.
    It adds one status record exactly when the upsert settles and the
    device has no record yet; in every other case the number of records
    stays, and the records of other devices are as before. *)
Theorem relay_status_touches_one_record clock upsertOutcome data w :
  let w' := handleRelayStatus clock upsertOutcome data w in
  users w' = users w ∧ connectedDevices w' = connectedDevices w
  ∧ length (statuses w')
    = (if bool_decide
            (upsertOutcome = Resolved
             ∧ Forall (λ d, ds_deviceId d ≠ rs_deviceId data) (statuses w))
       then S (length (statuses w)) else length (statuses w))
  ∧ ∀ j d, statuses w !! j = Some d → ds_deviceId d ≠ rs_deviceId data →
           statuses w' !! j = Some d.
Proof.
  cbv zeta. split; [|split].
  - unfold handleRelayStatus, broadcastToWebSockets. cbn [emit statuses].
    by destruct (findOneAndUpdate _ _ _ _).
  - unfold handleRelayStatus, broadcastToWebSockets. cbn [emit statuses].
    by destruct (findOneAndUpdate _ _ _ _).
  - rewrite handleRelayStatus_statuses.
    destruct upsertOutcome.
    + destruct (findOneAndUpdate Resolved (now clock) data (statuses w))
        as [coll'|] eqn:Hup.
      * pose proof (findOneAndUpdate_creates _ _ _ _ Hup) as Hc.
        pose proof (findOneAndUpdate_target _ _ _ _ Hup) as Ht.
        cbn [default]. split.
        -- case_bool_decide as Hb.
           ++ apply Hc. by destruct Hb.
           ++ destruct (list_find _ (statuses w)) as [[i d0]|] eqn:Hf;
                [by destruct Ht|].
              destruct Hb. split; [done|]. by apply list_find_None in Hf.
        -- intros j d Hj Hd.
           destruct (list_find _ (statuses w)) as [[i d0]|] eqn:Hf.
           ++ destruct Ht as (_ & Hother & _).
              apply list_find_Some in Hf as (Hi & Hd0 & _).
              rewrite Hother; [done|]. intros ->. congruence.
           ++ subst coll'. by apply lookup_app_l_Some.
      * cbn [default]. split; [|done].
        rewrite bool_decide_eq_false_2; [done|]. intros [_ Hall].
        unfold findOneAndUpdate in Hup.
        by rewrite (proj2 (list_find_None
                          (λ d, ds_deviceId d = rs_deviceId data)
                          (statuses w)) Hall) in Hup.
    + cbn [findOneAndUpdate default]. split; [|done].
      by rewrite bool_decide_eq_false_2 by (intros [? _]; done).
Qed.

(** The upsert refreshes the timestamp of the record it writes, so that
    record is what the dashboard read returns afterwards: when the device
    has records, all older than now, and the update applies, the latest
    record after a relay-status message is the first record of the device
    in natural order with its relays updated, carrying that record's ip,
    rssi and uptime, however old it was. *)
Theorem relay_status_promotes_first_record clock data w i d0 r :
  list_find (λ d, ds_deviceId d = rs_deviceId data) (statuses w)
  = Some (i, d0) →
  setRelayPaths (rs_relay data) (rs_state data) (rs_timer data) (ds_relays d0)
  = Some r →
  (∀ d, d ∈ statuses w → ds_deviceId d = rs_deviceId data →
        ds_timestamp d < now clock) →
  latestStatus (rs_deviceId data)
    (statuses (handleRelayStatus clock Resolved data w))
  = Some (i, {| ds_deviceId := ds_deviceId d0; ds_ip := ds_ip d0;
                ds_rssi := ds_rssi d0; ds_uptime := ds_uptime d0;
                ds_relays := r; ds_timestamp := now clock |}).
Proof.
  intros Hfind Hr Hold. rewrite handleRelayStatus_statuses.
  unfold findOneAndUpdate. rewrite Hfind, Hr. cbn [default].
  apply list_find_Some in Hfind as (Hi & Hdev & _).
  assert (i < length (statuses w))%nat as Hlt by (by eapply lookup_lt_Some).
  set (upd := with_relays_timestamp r (now clock) d0).
  pose proof (latestStatus_newest (rs_deviceId data)
                (<[i := upd]> (statuses w))) as Hl.
  destruct (latestStatus _ _) as [[k d]|].
  - destruct Hl as (Hk & Hd & Hmax).
    destruct (decide (k = i)) as [->|Hne].
    + rewrite list_lookup_insert_eq in Hk by done. by injection Hk as <-.
    + rewrite list_lookup_insert_ne in Hk by done. exfalso.
      assert (ds_timestamp upd ≤ ds_timestamp d) as Hle.
      { apply Hmax; [|done]. apply list_elem_of_lookup. exists i.
        by apply list_lookup_insert_eq. }
      assert (ds_timestamp d < now clock) as Hlt'.
      { apply Hold; [|done]. apply list_elem_of_lookup. eauto. }
      cbn in Hle. lia.
  - exfalso. apply (Hl upd); [|done].
    apply list_elem_of_lookup. exists i. by apply list_lookup_insert_eq.
Qed.

Lemma relay_status_promotes_first_record_witness :
  snd <$> latestStatus "GT-001"
            (statuses (handleRelayStatus (Scenario.cairoTime 0 8 2 0) Resolved
                         (Scenario.relayOn 0) Scenario.twoSnapshots))
  = Some {| ds_deviceId := "GT-001"; ds_ip := Some "10.0.0.7"%string;
            ds_rssi := Some (-60); ds_uptime := Some 100;
            ds_relays :=
              RelaysArray
                [Some (with_state_timer true 30 (Scenario.observed 0 false))];
            ds_timestamp := now (Scenario.cairoTime 0 8 2 0) |}.
Proof.
  assert (Forall (λ d, ds_timestamp d < now (Scenario.cairoTime 0 8 2 0))
            (statuses Scenario.twoSnapshots)) as Hall.
  { apply (bool_decide_unpack _). vm_compute. reflexivity. }
  rewrite Forall_forall in Hall.
  exact (f_equal (fmap snd)
    (relay_status_promotes_first_record (Scenario.cairoTime 0 8 2 0)
             (Scenario.relayOn 0) Scenario.twoSnapshots 0
             {| ds_deviceId := "GT-001"; ds_ip := Some "10.0.0.7"%string;
                ds_rssi := Some (-60); ds_uptime := Some 100;
                ds_relays := RelaysArray [Some (Scenario.observed 0 false)];
                ds_timestamp := now (Scenario.cairoTime 0 8 0 0) |}
             (RelaysArray
                [Some (with_state_timer true 30 (Scenario.observed 0 false))])
             eq_refl eq_refl (λ d Hd _, Hall d Hd))).
Defined.

(** ** Dashboard routes *)

Lemma upsertRelay_keeps t b rs k r :
  rs !! k = Some r →
  ∃ r', upsertRelay t b rs !! k = Some r'
        ∧ index r' = index r ∧ schedules r' = schedules r
        ∧ relay_createdAt r' = relay_createdAt r.
Proof.
  intros Hk. unfold upsertRelay.
  destruct (list_find _ rs) as [[k0 r0]|] eqn:Hfind.
  - apply list_find_Some in Hfind as (Hk0 & _ & _).
    destruct (decide (k = k0)) as [->|Hne].
    + exists (configure b r0).
      split; [apply list_lookup_insert_eq; by eapply lookup_lt_Some|].
      rewrite Hk in Hk0. by injection Hk0 as ->.
    + exists r. by rewrite list_lookup_insert_ne.
  - exists r. split; [by apply lookup_app_l_Some|done].
Qed.

(** A relay-configuration write, however its store calls end, removes no
    relay and no account and leaves alone what it is not about: every
    account keeps its username, password, deviceId and creation time,
    accounts of other devices are untouched, and every relay that existed
    keeps its position, index, schedules and creation time.  Status
    records are not touched. *)
Theorem relay_write_keeps_schedules clock findOutcome saveOutcome device b w :
  let w' := (putRelay clock findOutcome saveOutcome device b w).1 in
  length (users w') = length (users w)
  ∧ statuses w' = statuses w
  ∧ ∀ j x, users w !! j = Some x →
      ∃ x', users w' !! j = Some x'
            ∧ username x' = username x ∧ password x' = password x
            ∧ deviceId x' = deviceId x ∧ createdAt x' = createdAt x
            ∧ (deviceId x ≠ device → x' = x)
            ∧ ∀ k r, relays (dashboard x) !! k = Some r →
                ∃ r', relays (dashboard x') !! k = Some r'
                      ∧ index r' = index r ∧ schedules r' = schedules r
                      ∧ relay_createdAt r' = relay_createdAt r.
Proof.
  cbv zeta. split; [|split].
  - rewrite putRelay_users.
    destruct findOutcome, saveOutcome; try done.
    destruct (list_find _ (users w)) as [[i user]|]; [|done].
    apply length_insert.
  - unfold putRelay. repeat case_match; done.
  - intros j x Hj. rewrite putRelay_users.
    assert (∃ x', users w !! j = Some x'
                  ∧ username x' = username x ∧ password x' = password x
                  ∧ deviceId x' = deviceId x ∧ createdAt x' = createdAt x
                  ∧ (deviceId x ≠ device → x' = x)
                  ∧ ∀ k r, relays (dashboard x) !! k = Some r →
                      ∃ r', relays (dashboard x') !! k = Some r'
                            ∧ index r' = index r ∧ schedules r' = schedules r
                            ∧ relay_createdAt r' = relay_createdAt r) as Hsame.
    { exists x. repeat split; try done. intros k r Hk. by exists r. }
    destruct findOutcome, saveOutcome; try done.
    destruct (list_find _ (users w)) as [[i user]|] eqn:Hfind; [|done].
    apply list_find_Some in Hfind as (Hi & Hdev & _).
    destruct (decide (j = i)) as [->|Hne].
    + rewrite Hi in Hj. injection Hj as <-.
      eexists. split; [apply list_lookup_insert_eq; by eapply lookup_lt_Some|].
      cbn [with_dashboard username password deviceId createdAt dashboard
           relays].
      repeat split; try done. intros k r Hk.
      by apply upsertRelay_keeps.
    + by rewrite list_lookup_insert_ne.
Qed.

(** Of two writes for one index served in turn, the second decides: the
    first entry with that index ends up with the second write's name,
    image and enabled flag, and the second write adds no entry and moves
    none. *)
Theorem relay_write_last_wins t1 t2 b1 b2 rs :
  body_index b1 = body_index b2 →
  let rs1 := upsertRelay t1 b1 rs in
  let rs2 := upsertRelay t2 b2 rs1 in
  length rs2 = length rs1
  ∧ index <$> rs2 = index <$> rs1
  ∧ ∃ k r, list_find (λ r, index r = body_index b2) rs2 = Some (k, r)
           ∧ name r = body_name b2 ∧ image r = body_image b2
           ∧ enabled r = body_enabled b2.
Proof.
  intros Hidx rs1 rs2.
  assert (body_index b2 ∈ index <$> rs1) as Hin.
  { subst rs1. rewrite upsertRelay_indices, Hidx.
    destruct (decide _); [done|]. apply elem_of_app. right.
    by apply list_elem_of_singleton. }
  destruct (upsertRelay_existing t2 b2 rs1 Hin)
    as (k & r & Hk & Hr & Hfirst & Heq).
  fold rs2 in Heq.
  assert (k < length rs1)%nat as Hlt by (by eapply lookup_lt_Some).
  split; [rewrite Heq; apply length_insert|].
  split.
  { subst rs2. rewrite upsertRelay_indices. by destruct (decide _). }
  exists k, (configure b2 r). split; [|done].
  apply list_find_Some. rewrite Heq.
  split; [by apply list_lookup_insert_eq|]. split; [done|].
  intros j y Hj Hjk. rewrite list_lookup_insert_ne in Hj by lia.
  by apply (Hfirst j y).
Qed.

Lemma relay_write_last_wins_witness :
  let rs2 := upsertRelay 2 (Scenario.relayBody 3 "Garden lights")
               (upsertRelay 1 (Scenario.relayBody 3 "Lights")
                  [Scenario.pump []]) in
  length rs2 = 2%nat ∧ (name <$> rs2) !! 1%nat = Some (Some "Garden lights"%string).
Proof.
  cbv zeta.
  destruct (relay_write_last_wins 1 2 (Scenario.relayBody 3 "Lights")
              (Scenario.relayBody 3 "Garden lights") [Scenario.pump []]
              eq_refl) as (Hlen & _ & k & r & Hfind & Hname & _).
  split; [rewrite Hlen; reflexivity|].
  vm_compute. reflexivity.
Defined.

Lemma findRelay_Some ri rs k relay :
  findRelay ri rs = Some (k, relay) →
  rs !! k = Some relay ∧ ri = Some (index relay).
Proof.
  unfold findRelay. destruct ri as [z|]; [|done].
  intros (Hk & Hr & _)%list_find_Some. by rewrite Hr.
Qed.

(** The two schedule routes, by cases. *)
Lemma editSchedules_cases edit logged ok findOutcome saveOutcome device ri w :
  let res := editSchedules edit logged ok findOutcome saveOutcome device ri w in
  statuses res.1 = statuses w
  ∧ match findOutcome, list_find (λ x, deviceId x = device) (users w) with
    | Resolved, Some (i, user) =>
        match findRelay ri (relays (dashboard user)), saveOutcome with
        | Some (k, relay), Resolved =>
            users res.1
            = <[i := with_dashboard
                       {| relays := <[k := with_schedules
                                             (edit (schedules relay)) relay]>
                                      (relays (dashboard user)) |} user]>
                (users w)
            ∧ sr_status res.2 = 200
            ∧ sr_schedules res.2 = Some (edit (schedules relay))
        | Some _, Rejected =>
            users res.1 = users w ∧ sr_status res.2 = 500
            ∧ sr_schedules res.2 = None
        | None, _ =>
            users res.1 = users w ∧ sr_status res.2 = 404
            ∧ sr_schedules res.2 = None
        end
    | Resolved, None =>
        users res.1 = users w ∧ sr_status res.2 = 404
        ∧ sr_schedules res.2 = None
    | Rejected, _ =>
        users res.1 = users w ∧ sr_status res.2 = 500
        ∧ sr_schedules res.2 = None
    end.
Proof.
  cbv zeta. unfold editSchedules. cbn [emit users statuses].
  destruct findOutcome; [|done].
  destruct (list_find _ (users w)) as [[i user]|]; [|done].
  destruct (findRelay ri (relays (dashboard user))) as [[k relay]|]; [|done].
  by destruct saveOutcome.
Qed.

Lemma editSchedules_editsOneRelay edit logged ok findOutcome saveOutcome
    device ri w :
  editsOneRelay w device ri edit
    (editSchedules edit logged ok findOutcome saveOutcome device ri w).
Proof.
  destruct (editSchedules_cases edit logged ok findOutcome saveOutcome
              device ri w) as [Hst Hcases].
  set (res := editSchedules _ _ _ _ _ _ _ _) in *.
  assert (∀ j x, users w !! j = Some x →
            ∃ x', users w !! j = Some x'
              ∧ username x' = username x ∧ password x' = password x
              ∧ deviceId x' = deviceId x ∧ createdAt x' = createdAt x
              ∧ length (relays (dashboard x')) = length (relays (dashboard x))
              ∧ ∀ k r, relays (dashboard x) !! k = Some r →
                  ∃ r', relays (dashboard x') !! k = Some r'
                    ∧ index r' = index r ∧ name r' = name r
                    ∧ image r' = image r ∧ enabled r' = enabled r
                    ∧ relay_createdAt r' = relay_createdAt r
                    ∧ (schedules r' = schedules r
                       ∨ (schedules r' = edit (schedules r)
                          ∧ list_find (λ x, deviceId x = device) (users w)
                            = Some (j, x)
                          ∧ findRelay ri (relays (dashboard x))
                            = Some (k, r)))) as Hsame.
  { intros j x Hj. exists x. repeat split; try done.
    intros k r Hk. exists r. repeat split; try done. by left. }
  assert (∀ (P : Prop), users res.1 = users w → sr_status res.2 ≠ 200 →
            editsOneRelay w device ri edit res) as Hunchanged.
  { intros _ Hu Hs. unfold editsOneRelay. rewrite Hu.
    repeat split; try done; by auto. }
  destruct findOutcome;
    [|destruct Hcases as (Hu & Hs & _); apply (Hunchanged True); [done|];
      rewrite Hs; done].
  destruct (list_find (λ x, deviceId x = device) (users w))
    as [[i user]|] eqn:Hfind;
    [|destruct Hcases as (Hu & Hs & _); apply (Hunchanged True); [done|];
      rewrite Hs; done].
  destruct (findRelay ri (relays (dashboard user))) as [[k relay]|] eqn:Hrel;
    [|destruct Hcases as (Hu & Hs & _); apply (Hunchanged True); [done|];
      rewrite Hs; done].
  destruct saveOutcome;
    [|destruct Hcases as (Hu & Hs & _); apply (Hunchanged True); [done|];
      rewrite Hs; done].
  destruct Hcases as (Hu & Hs & Hresp).
  pose proof Hfind as (Hi & Hdev & _)%list_find_Some.
  pose proof Hrel as (Hk & Hri)%findRelay_Some.
  assert (i < length (users w))%nat as Hilt by (by eapply lookup_lt_Some).
  assert (k < length (relays (dashboard user)))%nat as Hklt
    by (by eapply lookup_lt_Some).
  unfold editsOneRelay. rewrite Hu.
  split; [done|]. split; [apply length_insert|]. split; [by left|].
  split; [intros ->; by rewrite Hri in *|].
  split.
  - intros _. exists i, user, k, relay. split; [done|]. split; [done|].
    split; [done|]. rewrite list_lookup_insert_eq by done.
    cbn [fmap option_fmap option_map with_dashboard dashboard relays].
    by rewrite list_lookup_insert_eq by done.
  - intros j x Hj. destruct (decide (j = i)) as [->|Hne].
    + rewrite Hi in Hj. injection Hj as <-.
      eexists. split; [by apply list_lookup_insert_eq|].
      cbn [with_dashboard username password deviceId createdAt dashboard
           relays].
      split; [done|]. split; [done|]. split; [done|]. split; [done|].
      split; [apply length_insert|].
      intros k' r Hk'. destruct (decide (k' = k)) as [->|Hnk].
      * rewrite Hk in Hk'. injection Hk' as <-.
        eexists. split; [by apply list_lookup_insert_eq|].
        cbn [with_schedules index name image enabled relay_createdAt
             schedules]. repeat split; try done. by right.
      * exists r. rewrite list_lookup_insert_ne by done.
        repeat split; try done. by left.
    + rewrite list_lookup_insert_ne by done.
      exists x. repeat split; try done.
      intros k' r Hk'. exists r. repeat split; try done. by left.
Qed.

(** Adding and deleting a schedule touch one relay's schedule list and
    nothing else.  Either route answers 200 only when the account and
    the first relay with the requested index were found and the save went
    through; then that relay's list has the new schedule at its end
    (added as sent: no check of the days or of the order of the two
    times), respectively is the old list spliced at the requested
    position.  In every other case the accounts are as before; a relay
    index that is not a number finds no relay.  No route changes
    credentials, the relay entries themselves, or status records. *)
Theorem schedule_routes_edit_one_relay findOutcome saveOutcome device ri w :
  (∀ b, editsOneRelay w device ri (λ ss, ss ++ [newSchedule b])
          (postSchedule findOutcome saveOutcome device ri b w))
  ∧ (∀ si, editsOneRelay w device ri (spliceOne si)
             (deleteSchedule findOutcome saveOutcome device ri si w)).
Proof.
  split; intros; apply editSchedules_editsOneRelay.
Qed.

Lemma spliceOne_delete {A} (l : list A) (i : nat) :
  spliceOne (Some (Z.of_nat i)) l = delete i l.
Proof.
  unfold spliceOne. cbv zeta. cbv [default from_option id].
  destruct (Z.ltb_spec (Z.of_nat i) 0) as [Hneg|_]; [lia|].
  rewrite delete_take_drop.
  destruct (decide (i ≤ length l)%nat) as [Hle|Hgt].
  - by rewrite Z.min_l, Nat2Z.id by lia.
  - rewrite Z.min_r, Nat2Z.id by lia.
    rewrite take_ge, !drop_ge by lia. rewrite take_ge by lia. done.
Qed.

(** [splice(start, 1)] on a schedule list: a position inside the list
    removes exactly that entry and moves the later ones down by one; a
    position at or past the end removes nothing; a negative position
    counts from the end and stops at the first entry; and a position that
    is not a number removes the first entry. *)
Theorem splice_removes_one_position {A} (l : list A) :
  (∀ i : nat, (i < length l)%nat →
     length (spliceOne (Some (Z.of_nat i)) l) = pred (length l)
     ∧ ∀ j, spliceOne (Some (Z.of_nat i)) l !! j
            = l !! (if decide (j < i)%nat then j else S j))
  ∧ (∀ z, Z.of_nat (length l) ≤ z → spliceOne (Some z) l = l)
  ∧ (∀ z, z < 0 →
       spliceOne (Some z) l
       = spliceOne (Some (Z.max (Z.of_nat (length l) + z) 0)) l)
  ∧ spliceOne None l = tail l.
Proof.
  split; [|split; [|split]].
  - intros i Hi. rewrite spliceOne_delete. split.
    + rewrite length_delete; [lia|]. by apply lookup_lt_is_Some.
    + intros j. destruct (decide (j < i)%nat).
      * by apply list_lookup_delete_lt.
      * apply list_lookup_delete_ge. lia.
  - intros z Hz. unfold spliceOne. cbv zeta. cbv [default from_option id].
    destruct (Z.ltb_spec z 0); [lia|].
    rewrite Z.min_r, Nat2Z.id by lia.
    by rewrite take_ge, drop_ge, app_nil_r by lia.
  - intros z Hz. unfold spliceOne. cbv zeta. cbv [default from_option id].
    destruct (Z.ltb_spec z 0); [|lia].
    destruct (Z.ltb_spec (Z.max (Z.of_nat (length l) + z) 0) 0); [lia|].
    by rewrite (Z.min_l (Z.max _ _)) by lia.
  - unfold spliceOne. cbn. by destruct l.
Qed.

Lemma splice_removes_one_position_witness :
  spliceOne (Some 1) ["a"; "b"; "c"]%string = ["a"; "c"]%string
  ∧ spliceOne (Some 7) ["a"; "b"; "c"]%string = ["a"; "b"; "c"]%string
  ∧ spliceOne (Some (-1)) ["a"; "b"; "c"]%string = ["a"; "b"]%string.
Proof.
  destruct (splice_removes_one_position ["a"; "b"; "c"]%string)
    as (_ & Hpast & Hneg & _).
  split; [reflexivity|]. split; [apply Hpast; cbn; lia|].
  rewrite Hneg by lia. reflexivity.
Defined.

Lemma splice_positions {A} (l : list A) (x : A) :
  spliceOne (Some (Z.of_nat (length l))) (l ++ [x]) = l
  ∧ spliceOne (Some (-1)) (l ++ [x]) = l.
Proof.
  assert (delete (length l) (l ++ [x]) = l) as Hdel.
  { rewrite delete_take_drop, take_app_length.
    rewrite drop_ge by (rewrite length_app; simpl; lia).
    apply app_nil_r. }
  split; [by rewrite spliceOne_delete|].
  unfold spliceOne. cbv zeta. cbv [default from_option id].
  destruct (Z.ltb_spec (-1) 0); [|lia].
  rewrite length_app. cbn [length].
  replace (Z.to_nat (Z.max (Z.of_nat (length l + 1) + -1) 0))
    with (length l) by lia.
  by rewrite <- delete_take_drop.
Qed.

Lemma list_find_insert_same {A} (P : A → Prop) `{!∀ x, Decision (P x)}
    (l : list A) i x y :
  list_find P l = Some (i, x) → P y →
  list_find P (<[i := y]> l) = Some (i, y).
Proof.
  intros (Hi & Hx & Hfirst)%list_find_Some Hy. apply list_find_Some.
  split; [apply list_lookup_insert_eq; by eapply lookup_lt_Some|].
  split; [done|]. intros j z Hj Hlt.
  rewrite list_lookup_insert_ne in Hj by lia. by apply (Hfirst j z).
Qed.

(** Adding a schedule and then deleting the position it was given (the old
    length of the relay's list, or -1 for the last entry) puts every
    account back exactly as it was. *)
Theorem schedule_add_then_delete_restores device ri b w i user k relay si :
  list_find (λ x, deviceId x = device) (users w) = Some (i, user) →
  findRelay ri (relays (dashboard user)) = Some (k, relay) →
  si = Z.of_nat (length (schedules relay)) ∨ si = -1 →
  let w1 := (postSchedule Resolved Resolved device ri b w).1 in
  let w2 := (deleteSchedule Resolved Resolved device ri (Some si) w1).1 in
  users w2 = users w.
Proof.
  intros Hfind Hrel Hsi w1 w2.
  pose proof Hfind as (Hi & Hdev & _)%list_find_Some.
  pose proof Hrel as (Hk & Hri)%findRelay_Some.
  set (ss := schedules relay) in *.
  set (r1 := with_schedules (ss ++ [newSchedule b]) relay).
  set (u1 := with_dashboard
               {| relays := <[k := r1]> (relays (dashboard user)) |} user).
  assert (users w1 = <[i := u1]> (users w)) as Hw1.
  { subst w1. unfold postSchedule.
    destruct (editSchedules_cases (λ ss, ss ++ [newSchedule b])
                "Error adding schedule" "Schedule added successfully"
                Resolved Resolved device ri w) as [_ Hc].
    rewrite Hfind, Hrel in Hc. by destruct Hc as (-> & _). }
  assert (list_find (λ x, deviceId x = device) (users w1) = Some (i, u1))
    as Hfind1.
  { rewrite Hw1. by apply (list_find_insert_same _ _ _ user). }
  assert (findRelay ri (relays (dashboard u1)) = Some (k, r1)) as Hrel1.
  { subst u1. cbn [with_dashboard dashboard relays]. rewrite Hri in *.
    unfold findRelay in *.
    by apply (list_find_insert_same _ _ _ relay). }
  assert (spliceOne (Some si) (schedules r1) = ss) as Hsplice.
  { subst r1. cbn [with_schedules schedules].
    destruct (splice_positions ss (newSchedule b)) as [Hlen Hlast].
    by destruct Hsi as [-> | ->]. }
  subst w2. unfold deleteSchedule.
  destruct (editSchedules_cases (spliceOne (Some si))
              "Error deleting schedule" "Schedule deleted successfully"
              Resolved Resolved device ri w1) as [_ Hc].
  rewrite Hfind1, Hrel1 in Hc. destruct Hc as (-> & _).
  rewrite Hw1, list_insert_insert_eq, Hsplice.
  apply list_insert_id. rewrite Hi. f_equal.
  subst u1 r1 ss. clear -Hk.
  destruct user as [un pw dv ca [rs]]. cbn in *.
  unfold with_dashboard. cbn. do 2 f_equal.
  rewrite list_insert_insert_eq. symmetry. apply list_insert_id.
  rewrite Hk. f_equal. by destruct relay.
Qed.

Lemma schedule_add_then_delete_restores_witness :
  users (deleteSchedule Resolved Resolved "GT-001" (Some 0) (Some 0)
           (postSchedule Resolved Resolved "GT-001" (Some 0)
              (Scenario.scheduleBody [1] "08:00" "09:00")
              Scenario.twoAccounts).1).1
  = users Scenario.twoAccounts.
Proof.
  apply (schedule_add_then_delete_restores "GT-001" (Some 0)
           (Scenario.scheduleBody [1] "08:00" "09:00") Scenario.twoAccounts
           0 (Scenario.account "alice" "GT-001") 0 (Scenario.pump []) 0
           eq_refl eq_refl (or_introl eq_refl)).
Defined.

(** ** The server as a whole *)

Lemma handleRelayStatus_users clock upsertOutcome data w :
  users (handleRelayStatus clock upsertOutcome data w) = users w
  ∧ wsClients (handleRelayStatus clock upsertOutcome data w) = wsClients w.
Proof.
  unfold handleRelayStatus, broadcastToWebSockets. cbn [emit statuses].
  by destruct (findOneAndUpdate _ _ _ _).
Qed.

Lemma editSchedules_usersStep edit logged ok findOutcome saveOutcome device
    ri w :
  usersStep (users w)
    (users (editSchedules edit logged ok findOutcome saveOutcome device
              ri w).1).
Proof.
  destruct (editSchedules_cases edit logged ok findOutcome saveOutcome
              device ri w) as [_ Hc].
  destruct findOutcome; [|destruct Hc as (-> & _); by apply step_same].
  destruct (list_find _ (users w)) as [[i user]|] eqn:Hfind;
    [|destruct Hc as (-> & _); by apply step_same].
  destruct (findRelay ri (relays (dashboard user))) as [[k relay]|] eqn:Hrel;
    [|destruct Hc as (-> & _); by apply step_same].
  destruct saveOutcome; [|destruct Hc as (-> & _); by apply step_same].
  destruct Hc as (-> & _).
  apply list_find_Some in Hfind as (Hi & _).
  apply findRelay_Some in Hrel as (Hk & _).
  eapply step_dashboard; [done| |done].
  cbn [relays]. rewrite list_fmap_insert.
  rewrite (list_insert_id (index <$> relays (dashboard user)) k); [done|].
  by rewrite list_lookup_fmap, Hk.
Qed.

Lemma serve_usersStep a w : usersStep (users w) (users (serve a w)).
Proof.
  unfold serve. destruct (arr_request a) as
    [fresh data|data|data| |ws|id|fresh body|device|device body
    |device k body|device k i| ].
  - rewrite registration_users.
    destruct (validRegistration data); [|by apply step_same].
    destruct (arr_first a), (arr_second a); try by apply step_same.
    destruct (list_find _ (users w)) as [[i x]|] eqn:Hfind.
    + apply list_find_Some in Hfind as (Hi & _). by eapply step_password.
    + by apply (step_new _ _ (newAccount fresh (arr_clock a) data)).
  - apply step_same.
    by destruct (handleRelayStatus_users (arr_clock a)
                   (arr_first a) data w).
  - apply step_same. unfold handleDeviceStatus, broadcastToWebSockets.
    by repeat case_match.
  - apply step_same.
    by destruct (schedulerTick_state (arr_clock a) (arr_first a) w).
  - apply step_same. unfold wsConnection. by case_match.
  - by apply step_same.
  - rewrite postRegister_cases.
    destruct (validRegistration body); [|by apply step_same].
    destruct (arr_first a); [|by apply step_same].
    destruct (accountsMatching body (users w)) eqn:Hm; [|by apply step_same].
    destruct (arr_second a); [|by apply step_same].
    apply list_find_None_filter in Hm.
    by apply (step_new _ _ (newAccount fresh (arr_clock a) body)).
  - apply step_same. unfold getDashboard. by repeat case_match.
  - rewrite putRelay_users.
    destruct (arr_first a), (arr_second a); try by apply step_same.
    destruct (list_find _ (users w)) as [[i x]|] eqn:Hfind;
      [|by apply step_same].
    apply list_find_Some in Hfind as (Hi & _).
    eapply step_dashboard; [done| |done]. apply upsertRelay_NoDup.
  - unfold postSchedule. by apply editSchedules_usersStep.
  - unfold deleteSchedule. by apply editSchedules_usersStep.
  - apply step_same. unfold clearOldData. by case_match.
Qed.

Lemma usersStep_unique coll coll' :
  usersStep coll coll' → uniqueAccounts coll → uniqueAccounts coll'.
Proof.
  intros [-> | i x h Hi -> | i x d Hi _ -> | x Hfind _ ->] Hu; [done| | |].
  - unfold uniqueAccounts.
    by destruct (with_password_names h _ _ _ Hi) as [-> ->].
  - unfold uniqueAccounts.
    by destruct (with_dashboard_names d _ _ _ Hi) as [-> ->].
  - by apply uniqueAccounts_snoc.
Qed.

Lemma usersStep_distinct coll coll' :
  usersStep coll coll' → distinctIndices coll → distinctIndices coll'.
Proof.
  unfold distinctIndices.
  intros [-> | i x h Hi -> | i x d Hi Hd -> | x _ Hnew ->] Hall; [done| | |].
  - apply Forall_insert; [done|]. cbn [with_password dashboard].
    rewrite Forall_lookup in Hall. by apply (Hall i).
  - apply Forall_insert; [done|]. cbn [with_dashboard dashboard].
    apply Hd. rewrite Forall_lookup in Hall. by apply (Hall i).
  - apply Forall_app. split; [done|]. apply Forall_singleton.
    rewrite Hnew. constructor.
Qed.

Lemma usersStep_keeps coll coll' j x :
  usersStep coll coll' → coll !! j = Some x →
  ∃ x', coll' !! j = Some x' ∧ username x' = username x
        ∧ deviceId x' = deviceId x ∧ createdAt x' = createdAt x.
Proof.
  intros [-> | i y h Hi -> | i y d Hi _ -> | y _ _ ->] Hj.
  - by exists x.
  - destruct (decide (j = i)) as [->|Hne].
    + rewrite Hi in Hj. injection Hj as ->. eexists.
      split; [apply list_lookup_insert_eq; by eapply lookup_lt_Some|done].
    + exists x. by rewrite list_lookup_insert_ne.
  - destruct (decide (j = i)) as [->|Hne].
    + rewrite Hi in Hj. injection Hj as ->. eexists.
      split; [apply list_lookup_insert_eq; by eapply lookup_lt_Some|done].
    + exists x. by rewrite list_lookup_insert_ne.
  - exists x. split; [by apply lookup_app_l_Some|done].
Qed.

(** Whatever arrives, in whatever order and with whatever store
    failures (bus messages, ticks, socket events, route calls), no two
    stored accounts ever share a username or a deviceId, provided none
    did before. *)
Theorem server_keeps_accounts_unique arrivals w :
  uniqueAccounts (users w) → uniqueAccounts (users (run arrivals w)).
Proof.
  unfold run. revert w. induction arrivals as [|a arrivals IH]; intros w Hu;
    [done|].
  cbn [foldl]. apply IH. eapply usersStep_unique; [apply serve_usersStep|done].
Qed.

Lemma server_keeps_accounts_unique_witness :
  uniqueAccounts (users (run Scenario.session Scenario.emptyWorld))
  ∧ (username <$> users (run Scenario.session Scenario.emptyWorld))
    = ["alice"; "bob"]%string.
Proof.
  split; [|vm_compute; reflexivity].
  apply server_keeps_accounts_unique. split; constructor.
Defined.

(** Whatever arrives, no dashboard ever holds two relay entries with one
    index, provided none did before. *)
Theorem server_keeps_indices_distinct arrivals w :
  distinctIndices (users w) → distinctIndices (users (run arrivals w)).
Proof.
  unfold run. revert w. induction arrivals as [|a arrivals IH]; intros w Hd;
    [done|].
  cbn [foldl]. apply IH.
  eapply usersStep_distinct; [apply serve_usersStep|done].
Qed.

Lemma server_keeps_indices_distinct_witness :
  distinctIndices (users (run Scenario.session Scenario.emptyWorld))
  ∧ ((λ u, index <$> relays (dashboard u))
       <$> users (run Scenario.session Scenario.emptyWorld))
    = [[0; 3]; []].
Proof.
  split; [|vm_compute; reflexivity].
  apply server_keeps_indices_distinct. constructor.
Defined.

(** No request deletes, renames or moves an account: an account stored
    at some position is still there after any sequence of requests, with
    the same username, deviceId and creation time. *)
Theorem server_never_drops_accounts arrivals w j x :
  users w !! j = Some x →
  ∃ x', users (run arrivals w) !! j = Some x'
        ∧ username x' = username x ∧ deviceId x' = deviceId x
        ∧ createdAt x' = createdAt x.
Proof.
  unfold run. revert w x. induction arrivals as [|a arrivals IH];
    intros w x Hj; [by exists x|].
  cbn [foldl].
  destruct (usersStep_keeps _ _ j x (serve_usersStep a w) Hj)
    as (x1 & Hj1 & Hu & Hd & Hc).
  destruct (IH _ _ Hj1) as (x' & Hj' & Hu' & Hd' & Hc').
  exists x'. split; [done|]. by rewrite Hu', Hd', Hc'.
Qed.

Lemma server_never_drops_accounts_witness :
  ∃ x', users (run Scenario.session Scenario.twoAccounts) !! 1%nat = Some x'
        ∧ username x' = "bob"%string ∧ deviceId x' = "GT-002"%string
        ∧ createdAt x' = 0.
Proof.
  apply (server_never_drops_accounts Scenario.session Scenario.twoAccounts
           1%nat (Scenario.account "bob" "GT-002") eq_refl).
Defined.

(** ** Maintenance *)

(** The purge keeps exactly the status records whose timestamp is not
    more than one hour before now (a record exactly one hour old stays),
    in their order, and reports how many it removed; a second purge at
    the same instant removes nothing.  Accounts and the device cache are
    not touched, so a device whose records are all purged stays in the
    cache.  When the store call is rejected nothing is removed. *)
Theorem clear_old_data_keeps_last_hour clock err w :
  let res := clearOldData clock Resolved err w in
  (∀ d, d ∈ statuses (res.1)
        ↔ d ∈ statuses w ∧ now clock - 3600000 ≤ ds_timestamp d)
  ∧ (statuses (res.1)) `sublist_of` (statuses w)
  ∧ cr_message res.2
    = "Cleared "
      +:+ pretty (length (statuses w) - length (statuses res.1))%nat
      +:+ " old device status records"
  ∧ users res.1 = users w ∧ connectedDevices res.1 = connectedDevices w
  ∧ statuses (clearOldData clock Resolved err res.1).1 = statuses res.1
  ∧ statuses (clearOldData clock Rejected err w).1 = statuses w.
Proof.
  cbv zeta. unfold clearOldData.
  cbn [fst snd emit set_statuses statuses users connectedDevices cr_message].
  split; [|split; [apply sublist_filter|]].
  - intros d. rewrite list_elem_of_filter. split; intros [H1 H2].
    + split; [done|]. lia.
    + split; [lia|done].
  - repeat split; try done.
    rewrite list_filter_filter. apply list_filter_iff. intros d. tauto.
Qed.

(** ** Sockets *)

Lemma filter_ids (P : nat → Prop) `{!∀ n, Decision (P n)} (cs : list WsClient) :
  filter P (client_id <$> cs) = client_id <$> filter (λ c, P (client_id c)) cs.
Proof.
  induction cs as [|c cs IH]; [done|].
  rewrite fmap_cons, !filter_cons, IH.
  by destruct (decide (P (client_id c))).
Qed.

(** Who a broadcast reaches is decided by the socket set at that moment:
    once a socket's close or error event has been handled it is in no
    later recipient list, the other recipients being as before; a newly
    connected socket that is open is added at the end; and adding a
    socket that is already in the set changes nothing. *)
Theorem socket_set_decides_recipients ws id w :
  openClients (wsClosed id w) = filter (λ c, c ≠ id) (openClients w)
  ∧ (id ∉ openClients (wsClosed id w))
  ∧ openClients (wsConnection ws w)
    = openClients w
      ++ (if bool_decide ((client_id ws ∉ client_id <$> wsClients w)
                          ∧ readyState ws = OPEN)
          then [client_id ws] else [])
  ∧ wsConnection ws (wsConnection ws w) = wsConnection ws w.
Proof.
  assert (openClients (wsClosed id w) = filter (λ c, c ≠ id) (openClients w))
    as Hclosed.
  { unfold openClients, wsClosed. cbn [set_wsClients wsClients].
    rewrite filter_ids. f_equal. rewrite !list_filter_filter.
    apply list_filter_iff. intros c. tauto. }
  split; [done|]. split.
  { rewrite Hclosed. intros Hin%list_elem_of_filter. by destruct Hin. }
  split.
  - unfold openClients, wsConnection.
    destruct (decide (client_id ws ∈ client_id <$> wsClients w)) as [Hin|Hin].
    + rewrite bool_decide_eq_false_2 by tauto. by rewrite app_nil_r.
    + cbn [set_wsClients wsClients]. rewrite filter_app, fmap_app.
      f_equal. rewrite filter_cons, filter_nil.
      destruct (decide (readyState ws = OPEN)) as [Ho|Ho].
      * by rewrite bool_decide_eq_true_2.
      * by rewrite bool_decide_eq_false_2 by tauto.
  - unfold wsConnection.
    destruct (decide (client_id ws ∈ client_id <$> wsClients w)) as [Hin|Hin].
    + by rewrite decide_True.
    + cbn [set_wsClients wsClients].
      rewrite decide_True; [done|]. rewrite fmap_app.
      apply elem_of_app. right. by apply list_elem_of_singleton.
Qed.

(** ** The dashboard page *)

Lemma filter_insert_drops {A} (P : A → Prop) `{!∀ x, Decision (P x)}
    (l : list A) i x y :
  l !! i = Some x → P x → ¬ P y →
  length (filter P (<[i := y]> l)) = pred (length (filter P l)).
Proof.
  revert i. induction l as [|a l IH]; intros [|i] Hi Hx Hy; try done.
  - simpl in Hi. injection Hi as ->. simpl. rewrite !filter_cons.
    by destruct (decide (P y)), (decide (P x)).
  - simpl in Hi. simpl. rewrite !filter_cons.
    destruct (decide (P a)); [|by apply IH].
    simpl. rewrite (IH i Hi Hx Hy).
    assert (x ∈ filter P l) as Hin.
    { apply list_elem_of_filter. split; [done|].
      apply list_elem_of_lookup. eauto. }
    destruct (filter P l); [by apply elem_of_nil in Hin|done].
Qed.

Lemma onRelayStatus_counts m rs :
  let c := Z.of_nat (rs_relay m) in
  length (Client.entriesOf c (Client.onRelayStatus m rs))
  = pred (length (Client.entriesOf c rs))
  ∧ length (Client.onRelayStatus m rs)
    = match Client.entriesOf c rs with
      | [] => S (length rs)
      | _ :: _ => length rs
      end.
Proof.
  cbv zeta. unfold Client.onRelayStatus, Client.entriesOf.
  destruct (list_find _ rs) as [[k e]|] eqn:Hfind.
  - pose proof Hfind as (Hk & He & _)%list_find_Some. split.
    + by apply (filter_insert_drops _ _ _ e).
    + rewrite length_insert.
      destruct (filter _ rs) eqn:Hf; [|done].
      apply list_find_None_filter in Hf. congruence.
  - apply list_find_None_filter in Hfind. rewrite Hfind. split.
    + rewrite filter_app, Hfind, filter_cons. by rewrite decide_False.
    + rewrite length_app. simpl. lia.
Qed.

(** The page replaces an element found by its [index] with the payload
    of the relay-status message, which has no [index]; so of the
    relay-status messages it receives for one channel, only as many as
    there were elements with that index replace something, and every
    later one is appended as a new element: the list grows by one per
    message. *)
Theorem page_appends_repeated_relay_status (c : nat) ms rs :
  Forall (λ m, rs_relay m = c) ms →
  length (Client.onRelayStatuses ms rs)
  = (length rs
     + (length ms - length (Client.entriesOf (Z.of_nat c) rs)))%nat.
Proof.
  unfold Client.onRelayStatuses. revert rs.
  induction ms as [|m ms IH]; intros rs Hall; [simpl; lia|].
  apply Forall_cons in Hall as [Hm Hall]. cbn [foldl length].
  rewrite (IH _ Hall).
  destruct (onRelayStatus_counts m rs) as [Hcount Hlen].
  rewrite Hm in Hcount, Hlen. rewrite Hcount, Hlen.
  destruct (Client.entriesOf (Z.of_nat c) rs); simpl; lia.
Qed.

Lemma page_appends_repeated_relay_status_witness :
  length (Client.onRelayStatuses
            [Scenario.relayOn 0; Scenario.relayOn 0; Scenario.relayOn 0]
            (Client.onDeviceStatus (Scenario.snapshot 100)))
  = 3%nat.
Proof.
  rewrite (page_appends_repeated_relay_status 0); [reflexivity|].
  by repeat constructor.
Defined.

(** After a relay-status message for a channel that had at most one
    element in the page's list, the lookup by [index] finds nothing for
    that channel, so the relay card shows OFF, whatever state the message
    reported. *)
Theorem page_shows_off_after_relay_status m rs :
  (length (Client.entriesOf (Z.of_nat (rs_relay m)) rs) ≤ 1)%nat →
  Client.shownOn (Z.of_nat (rs_relay m)) (Client.onRelayStatus m rs) = false.
Proof.
  intros Hle. destruct (onRelayStatus_counts m rs) as [Hcount _].
  unfold Client.shownOn.
  destruct (list_find _ (Client.onRelayStatus m rs)) as [[k e]|] eqn:Hfind;
    [|done].
  exfalso.
  assert (Client.entriesOf (Z.of_nat (rs_relay m)) (Client.onRelayStatus m rs)
          = []) as Hnil.
  { destruct (Client.entriesOf _ (Client.onRelayStatus m rs)); [done|].
    simpl in Hcount. lia. }
  apply list_find_None_filter in Hnil. congruence.
Qed.

Lemma page_shows_off_after_relay_status_witness :
  Client.shownOn 0
    (Client.onRelayStatus (Scenario.relayOn 0)
       (Client.onDeviceStatus (Scenario.snapshot 100))) = false
  ∧ rs_state (Scenario.relayOn 0) = true.
Proof.
  split; [|reflexivity].
  apply (page_shows_off_after_relay_status (Scenario.relayOn 0)).
  vm_compute. lia.
Defined.

(** The add-relay dialog offers exactly the channels 0..19 that no
    configured relay has as its index, so a relay submitted for an
    offered channel is always appended as a new entry and never
    overwrites the name of an existing one. *)
Theorem offered_channel_is_appended d i :
  (i ∈ Client.availableChannels d ↔ 0 ≤ i < 20 ∧ i ∉ index <$> relays d)
  ∧ (i ∈ Client.availableChannels d →
     ∀ t n, upsertRelay t (Client.relayForm i n) (relays d)
            = relays d ++ [newRelay t (Client.relayForm i n)]).
Proof.
  assert (i ∈ Client.availableChannels d
          ↔ 0 ≤ i < 20 ∧ i ∉ index <$> relays d) as Hiff.
  { unfold Client.availableChannels.
    rewrite list_elem_of_filter, elem_of_seqZ. split; intros [? ?].
    - split; [lia|done].
    - split; [done|lia]. }
  split; [done|]. intros [_ Hout]%Hiff t n.
  by apply upsertRelay_fresh.
Qed.

Lemma offered_channel_is_appended_witness :
  Client.availableChannels {| relays := [Scenario.pump []] |}
  = [1; 2; 3; 4; 5; 6; 7; 8; 9; 10; 11; 12; 13; 14; 15; 16; 17; 18; 19]
  ∧ length (upsertRelay 5 (Client.relayForm 4 "Fan") [Scenario.pump []])
    = 2%nat.
Proof.
  split; [vm_compute; reflexivity|].
  rewrite (proj2 (offered_channel_is_appended
                    {| relays := [Scenario.pump []] |} 4)).
  - reflexivity.
  - apply (bool_decide_unpack _). vm_compute. reflexivity.
Defined.

Lemma includes_elem_of x (ds : list Z) : Js.includes x ds = true ↔ x ∈ ds.
Proof.
  unfold Js.includes. rewrite existsb_exists. split.
  - intros (y & Hy & ->%Z.eqb_eq). by apply list_elem_of_In.
  - intros Hin. exists x. split; [by apply list_elem_of_In|].
    apply Z.eqb_refl.
Qed.

Lemma includes_Permutation x (ds ds' : list Z) :
  ds ≡ₚ ds' → Js.includes x ds = Js.includes x ds'.
Proof.
  intros Hp. apply eq_true_iff_eq. rewrite !includes_elem_of.
  by rewrite Hp.
Qed.

(** The label of a day set does not depend on the order in which the
    days were ticked: all seven days read "Every day", Monday to Friday
    "Weekdays", Saturday and Sunday "Weekends".  A set of any other size
    than 7, 5 or 2 is spelled out, with nothing for a number that is not
    a weekday. *)
Theorem days_text_ignores_order ds :
  (ds ≡ₚ [0; 1; 2; 3; 4; 5; 6] → Client.getDaysText ds = "Every day"%string)
  ∧ (ds ≡ₚ [1; 2; 3; 4; 5] → Client.getDaysText ds = "Weekdays"%string)
  ∧ (ds ≡ₚ [0; 6] → Client.getDaysText ds = "Weekends"%string)
  ∧ (length ds ≠ 7%nat → length ds ≠ 5%nat → length ds ≠ 2%nat →
     Client.getDaysText ds = String.concat ", " (Client.dayName <$> ds)).
Proof.
  unfold Client.getDaysText. repeat split.
  - intros Hp. by rewrite (Permutation_length Hp).
  - intros Hp. rewrite (Permutation_length Hp).
    by rewrite !(includes_Permutation _ _ _ Hp).
  - intros Hp. rewrite (Permutation_length Hp).
    by rewrite !(includes_Permutation _ _ _ Hp).
  - intros H7 H5 H2.
    by rewrite (proj2 (Nat.eqb_neq _ _) H7), (proj2 (Nat.eqb_neq _ _) H5),
      (proj2 (Nat.eqb_neq _ _) H2).
Qed.

Lemma days_text_ignores_order_witness :
  Client.getDaysText [5; 3; 1; 4; 2] = "Weekdays"%string
  ∧ Client.getDaysText [6; 0] = "Weekends"%string
  ∧ Client.getDaysText [1; 9; 3] = "Mon, , Wed"%string.
Proof.
  destruct (days_text_ignores_order [5; 3; 1; 4; 2]) as (_ & Hwd & _).
  destruct (days_text_ignores_order [6; 0]) as (_ & _ & Hwe & _).
  destruct (days_text_ignores_order [1; 9; 3]) as (_ & _ & _ & Hother).
  split; [apply Hwd|split; [apply Hwe|]].
  - apply (bool_decide_unpack _). vm_compute. reflexivity.
  - apply Permutation_swap.
  - rewrite Hother by (cbn; lia). reflexivity.
Defined.

(** ** Switched-off relays and schedules *)

(** A tick publishes no command for a device and channel when every
    relay entry of that device with that index is stored with
    [enabled: false] or has only schedules with [enabled: false],
    whatever the day and time. *)
Theorem disabled_relay_gets_no_command clock findOutcome w device k :
  (∀ user relay,
     user ∈ users w → relay ∈ relays (dashboard user) →
     deviceId user = device → index relay = k →
     enabled relay = Some false
     ∨ Forall (λ s, sched_enabled s = false) (schedules relay)) →
  Forall (λ m, ¬ (cm_deviceId m = device ∧ cm_relay m = k))
    (drop (length (published (trace w)))
       (published (trace (schedulerTick clock findOutcome w)))).
Proof.
  intros Hoff. rewrite schedulerTick_published, drop_app_length.
  destruct findOutcome; [|constructor].
  apply Forall_forall. intros m Hm [Hdev Hk].
  apply tickCommands_spec in Hm
    as (user & relay & s & Hu & Hr & Hs & He & Hf & ->).
  cbn in Hdev, Hk.
  destruct (Hoff user relay Hu Hr Hdev Hk) as [Hd|Hall].
  - unfold relayEnabled in He. by rewrite Hd in He.
  - rewrite Forall_forall in Hall. unfold scheduleFires in Hf.
    by rewrite (Hall s Hs) in Hf.
Qed.

Lemma disabled_relay_gets_no_command_witness :
  let w := Scenario.farmWorld
             [{| days := [1]; startTime := "08:00"; endTime := "08:02";
                 sched_enabled := false |}] in
  Forall (λ m, ¬ (cm_deviceId m = "GT-001"%string ∧ cm_relay m = 0))
    (drop (length (published (trace w)))
       (published
          (trace (schedulerTick (Scenario.cairoTime 0 8 1 120) Resolved w)))).
Proof.
  apply disabled_relay_gets_no_command.
  intros user relay Hu Hr _ _. right.
  change (user ∈ [Scenario.farm
                    [{| days := [1]; startTime := "08:00"%string;
                        endTime := "08:02"%string;
                        sched_enabled := false |}]]) in Hu.
  apply list_elem_of_singleton in Hu as ->.
  change (relay ∈ [Scenario.pump
                     [{| days := [1]; startTime := "08:00"%string;
                         endTime := "08:02"%string;
                         sched_enabled := false |}]]) in Hr.
  apply list_elem_of_singleton in Hr as ->.
  by repeat constructor.
Defined.

Lemma registration_password_verifies_witness :
  ∃ i x,
    list_find (userMatches "bob" "GT-002")
      (users (handleUserRegistration 7 (Scenario.cairoTime 0 8 0 0) Resolved
                Resolved (Scenario.registration "bob" "newpw" "GT-002")
                Scenario.twoAccounts))
    = Some (i, x)
    ∧ bcrypt_compare "newpw" (password x) = true.
Proof.
  destruct (registration_password_verifies 7 (Scenario.cairoTime 0 8 0 0)
              (Scenario.registration "bob" "newpw" "GT-002")
              Scenario.twoAccounts eq_refl) as (i & x & Hfind & _ & Hok).
  by exists i, x.
Defined.

(** ** From the schedule route to the tick *)


